(** * Configuration loading and validation of the CloudWatch exporter

    A shallow embedding of [pkg/config.go]: the configuration tree
    ([ScrapeConf], [Discovery], [Job], [Static], [Metric], [Dimension],
    [Tag]), the [Load] method with its RoleArns defaulting loops, and the
    validation functions [validate], [validateDiscoveryJob],
    [validateStaticJob] and [validateMetric].

    Modelling choices
    - A Go slice is either [nil] or a (possibly empty) sequence: the code
      tests [== nil] in [validate] and [len(..) == 0] elsewhere, and the
      two differ on an empty, non-nil slice.
    - A Go [int] is a [Z]; the code only compares these values.
    - A Go [string] is a [string] (a sequence of 8-bit characters).
    - [log.Warningf] is a write to a log, kept as the list of messages
      emitted; an [error] is [None] for [nil] and [Some e] otherwise.
    - [ioutil.ReadFile] and [yaml.Unmarshal] are external; [Load] takes
      them as parameters. *)

From Stdlib Require Import ZArith String Ascii List DecimalString.
From stdpp Require Import base option list strings gmap.

Local Open Scope Z_scope.

(** ** Go slices *)

Inductive slice (A : Type) : Type :=
| nil_slice : slice A
| slice_of (xs : list A) : slice A.
Arguments nil_slice {A}.
Arguments slice_of {A} xs.

Definition elems {A} (s : slice A) : list A :=
  match s with
  | nil_slice => []
  | slice_of xs => xs
  end.

(** [len(s)]: zero for the nil slice. *)
Definition len {A} (s : slice A) : Z := Z.of_nat (length (elems s)).

(** [s == nil] *)
Definition is_nil {A} (s : slice A) : bool :=
  match s with
  | nil_slice => true
  | slice_of _ => false
  end.

(** ** Strings and formatting *)

(** [%d] applied to an [int]. *)
Definition fmt_d (z : Z) : string := NilZero.string_of_int (Z.to_int z).

(** [sub] occurs in [s] as a contiguous substring. *)
Definition contains (s sub : string) : Prop :=
  ∃ pre post : string, s = pre +:+ sub +:+ post.

Fixpoint containsb (s sub : string) : bool :=
  String.prefix sub s ||
  match s with
  | EmptyString => false
  | String _ s' => containsb s' sub
  end.

(** ** The configuration tree *)

Module Dimension.
Record t := mk { Name : string; Value : string }.
End Dimension.

Module Tag.
Record t := mk { Key : string; Value : string }.
End Tag.

Module Metric.
Record t := mk {
  Name : string;
  Statistics : slice string;
  AdditionalDimensions : slice Dimension.t;
  Period : Z;
  Length : Z;
  Delay : Z;
  NilToZero : bool;
  AddCloudwatchTimestamp : bool
}.
End Metric.

Module Job.
Record t := mk {
  Regions : slice string;
  Type_ : string;
  RoleArns : slice string;
  AwsDimensions : slice string;
  SearchTags : slice Tag.t;
  CustomTags : slice Tag.t;
  Metrics : slice Metric.t;
  Length : Z;
  Delay : Z;
  Period : Z;
  AddCloudwatchTimestamp : bool
}.

(** [j.RoleArns = r] *)
Definition set_RoleArns (r : slice string) (j : t) : t :=
  mk (Regions j) (Type_ j) r (AwsDimensions j) (SearchTags j)
     (CustomTags j) (Metrics j) (Length j) (Delay j) (Period j)
     (AddCloudwatchTimestamp j).
End Job.

Module Static.
Record t := mk {
  Name : string;
  Regions : slice string;
  RoleArns : slice string;
  Namespace : string;
  CustomTags : slice Tag.t;
  Dimensions : slice Dimension.t;
  Metrics : slice Metric.t
}.

Definition set_RoleArns (r : slice string) (j : t) : t :=
  mk (Name j) (Regions j) r (Namespace j) (CustomTags j) (Dimensions j)
     (Metrics j).
End Static.

(** [map[string][]string]; [None] is the nil map. *)
Abbreviation exportedTagsOnMetrics := (option (gmap string (slice string))).

Module Discovery.
Record t := mk {
  ExportedTagsOnMetrics : exportedTagsOnMetrics;
  Jobs : slice Job.t
}.
End Discovery.

Module ScrapeConf.
Record t := mk {
  Discovery : Discovery.t;
  Static : slice Static.t
}.
End ScrapeConf.

Definition supportedServices : list string :=
  [ "alb"; "apigateway"; "appsync"; "asg"; "cf"; "docdb"; "dynamodb"; "ebs";
    "ec"; "ec2"; "ec2Spot"; "ecs-svc"; "ecs-containerinsights"; "efs"; "elb";
    "emr"; "es"; "firehose"; "fsx"; "gamelift"; "kafka"; "kinesis"; "lambda";
    "ngw"; "nlb"; "rds"; "redshift"; "r53r"; "s3"; "sfn"; "sns"; "sqs"; "tgw";
    "tgwa"; "vpn"; "wafv2" ]%string.

(** Modelled from the spec: [stringInSlice] is called by
    [validateDiscoveryJob] but defined in another file of the package; the
    specification describes it as an exact, case-sensitive membership
    test. *)
Fixpoint stringInSlice (a : string) (list : list string) : bool :=
  match list with
  | [] => false
  | b :: rest => if String.eqb b a then true else stringInSlice a rest
  end.

(** ** Errors and the log *)

(** The three origins of the [error] values [Load] can return. *)
Inductive error : Type :=
| ReadFileError (cause : string)
| UnmarshalError (cause : string)
| Errorf (msg : string).

(** [e.Error()] *)
Definition Error (e : error) : string :=
  match e with
  | ReadFileError s | UnmarshalError s | Errorf s => s
  end.

(** The outcome of a validation function: the warnings it logged, in
    order, and the [error] it returned. *)
Definition outcome : Type := list string * option error.

Definition ok : outcome := ([], None).
Definition fail (msg : string) : outcome := ([], Some (Errorf msg)).
Definition Warningf (msg : string) : outcome := ([msg], None).

(** Run [r]; return its error if there is one, otherwise go on with [k]. *)
Definition and_then (r k : outcome) : outcome :=
  match r with
  | (w, Some e) => (w, Some e)
  | (w, None) => (w ++ k.1, k.2)
  end.

Notation "r >>> k" := (and_then r k) (at level 62, right associativity).

(** [if b { r }] *)
Definition when (b : bool) (r : outcome) : outcome := if b then r else ok.

(** [for idx, x := range xs { err := body(idx, x); if err != nil { return
    err } }], with [idx] starting at [start]. *)
Fixpoint range_check {A} (body : nat → A → outcome) (start : nat)
    (xs : list A) : outcome :=
  match xs with
  | [] => ok
  | x :: rest => body start x >>> range_check body (S start) rest
  end.

(** ** Validation *)

(** The local [mPeriod] of [validateMetric]. *)
Definition mPeriod (m : Metric.t) (discovery : option Job.t) : Z :=
  match discovery with
  | Some d => if Metric.Period m =? 0 then Job.Period d else Metric.Period m
  | None => Metric.Period m
  end.

(** The local [mLength] of [validateMetric]. *)
Definition mLength (m : Metric.t) (discovery : option Job.t) : Z :=
  match discovery with
  | Some d => if Metric.Length m =? 0 then Job.Length d else Metric.Length m
  | None => Metric.Length m
  end.

(** The prefix ["Metric [%s/%d] in %v"] shared by the messages of
    [validateMetric]. *)
Definition metricPrefix (m : Metric.t) (metricIdx : nat) (parent : string)
    : string :=
  "Metric [" +:+ Metric.Name m +:+ "/" +:+ fmt_d (Z.of_nat metricIdx)
    +:+ "] in " +:+ parent.

Definition periodMessage (m : Metric.t) (metricIdx : nat) (parent : string)
    : string :=
  metricPrefix m metricIdx parent
    +:+ ": Period value should be a positive integer".

Definition lengthWarning (m : Metric.t) (metricIdx : nat) (parent : string)
    (discovery : option Job.t) : string :=
  metricPrefix m metricIdx parent
    +:+ ": length(" +:+ fmt_d (mLength m discovery)
    +:+ ") is smaller than period(" +:+ fmt_d (mPeriod m discovery)
    +:+ "). This can cause that the data requested is not ready and generate data gaps".

Definition validateMetric (m : Metric.t) (metricIdx : nat) (parent : string)
    (discovery : option Job.t) : outcome :=
  when (String.eqb (Metric.Name m) EmptyString)
    (fail (metricPrefix m metricIdx parent +:+ ": Name should not be empty"))
  >>> when (len (Metric.Statistics m) =? 0)
    (fail (metricPrefix m metricIdx parent
             +:+ ": Statistics should not be empty"))
  >>> when (mPeriod m discovery <? 1)
    (fail (periodMessage m metricIdx parent))
  >>> when (mLength m discovery <? mPeriod m discovery)
    (Warningf (lengthWarning m metricIdx parent discovery))
  >>> ok.

(** ["Discovery job [%s/%d]"] *)
Definition discoveryParent (j : Job.t) (jobIdx : nat) : string :=
  "Discovery job [" +:+ Job.Type_ j +:+ "/" +:+ fmt_d (Z.of_nat jobIdx)
    +:+ "]".

Definition validateDiscoveryJob (j : Job.t) (jobIdx : nat) : outcome :=
  (if negb (String.eqb (Job.Type_ j) EmptyString) then
     when (negb (stringInSlice (Job.Type_ j) supportedServices))
       (fail ("Discovery job [" +:+ fmt_d (Z.of_nat jobIdx)
                +:+ "]: Service is not in known list!: " +:+ Job.Type_ j))
   else
     fail ("Discovery job [" +:+ fmt_d (Z.of_nat jobIdx)
             +:+ "]: Type should not be empty"))
  >>> when (len (Job.Regions j) =? 0)
    (fail (discoveryParent j jobIdx +:+ ": Regions should not be empty"))
  >>> when (len (Job.Metrics j) =? 0)
    (fail (discoveryParent j jobIdx +:+ ": Metrics should not be empty"))
  >>> range_check
        (λ metricIdx metric,
           validateMetric metric metricIdx (discoveryParent j jobIdx)
             (Some j))
        0 (elems (Job.Metrics j))
  >>> ok.

(** ["Static job [%s/%d]"] *)
Definition staticParent (j : Static.t) (jobIdx : nat) : string :=
  "Static job [" +:+ Static.Name j +:+ "/" +:+ fmt_d (Z.of_nat jobIdx)
    +:+ "]".

Definition validateStaticJob (j : Static.t) (jobIdx : nat) : outcome :=
  when (String.eqb (Static.Name j) EmptyString)
    (fail ("Static job [" +:+ fmt_d (Z.of_nat jobIdx)
             +:+ "]: Name should not be empty"))
  >>> when (String.eqb (Static.Namespace j) EmptyString)
    (fail (staticParent j jobIdx +:+ ": Namespace should not be empty"))
  >>> when (len (Static.Regions j) =? 0)
    (fail (staticParent j jobIdx +:+ ": Regions should not be empty"))
  >>> range_check
        (λ metricIdx metric,
           validateMetric metric metricIdx (staticParent j jobIdx) None)
        0 (elems (Static.Metrics j))
  >>> ok.

Definition rootMessage : string :=
  "At least 1 Discovery job or 1 Static must be defined".

Definition validate (c : ScrapeConf.t) : outcome :=
  let jobs := Discovery.Jobs (ScrapeConf.Discovery c) in
  let static := ScrapeConf.Static c in
  when (is_nil jobs && is_nil static) (fail rootMessage)
  >>> when (negb (is_nil jobs))
    (range_check (λ idx job, validateDiscoveryJob job idx) 0 (elems jobs))
  >>> when (negb (is_nil static))
    (range_check (λ idx job, validateStaticJob job idx) 0 (elems static))
  >>> ok.

(** ** Load *)

(** The loop [for n, job := range xs { if len(job.RoleArns) == 0 {
    xs[n].RoleArns = <the one-element slice of the empty string> } }] over
    the backing array [xs]:
    [todo] iterations are left and [n] is the next index. Each iteration
    reads [xs[n]] as it is then and writes the field of [xs[n]] in
    place. *)
Fixpoint defaultRoleArns_loop {A} (RoleArns : A → slice string)
    (set_RoleArns : slice string → A → A) (todo n : nat) (xs : list A)
    : list A :=
  match todo with
  | O => xs
  | S todo' =>
      let xs' :=
        match xs !! n with
        | Some job =>
            if len (RoleArns job) =? 0
            then alter (set_RoleArns (slice_of [EmptyString])) n xs
            else xs
        | None => xs
        end in
      defaultRoleArns_loop RoleArns set_RoleArns todo' (S n) xs'
  end.

(** The loop on a slice: a nil slice is ranged over zero times and stays
    nil. *)
Definition defaultRoleArns {A} (RoleArns : A → slice string)
    (set_RoleArns : slice string → A → A) (s : slice A) : slice A :=
  match s with
  | nil_slice => nil_slice
  | slice_of xs =>
      slice_of
        (defaultRoleArns_loop RoleArns set_RoleArns (length xs) 0%nat xs)
  end.

(** What [Load] leaves behind: the receiver [*c], the warnings logged and
    the [error] returned. *)
Record LoadResult := mkLoadResult {
  receiver : ScrapeConf.t;
  logged : list string;
  returned : option error
}.

Section Load.
(** [ioutil.ReadFile]: the bytes read and the cause of a failure. *)
Variable ReadFile : string → list Byte.byte * option string.
(** [yaml.Unmarshal(data, c)]: the receiver as the decoder leaves it and
    the cause of a failure. *)
Variable Unmarshal :
  list Byte.byte → ScrapeConf.t → ScrapeConf.t * option string.

Definition Load (c : ScrapeConf.t) (file : string) : LoadResult :=
  let '(yamlFile, err) := ReadFile file in
  match err with
  | Some cause => mkLoadResult c [] (Some (ReadFileError cause))
  | None =>
      let '(c, err) := Unmarshal yamlFile c in
      match err with
      | Some cause => mkLoadResult c [] (Some (UnmarshalError cause))
      | None =>
          let c :=
            ScrapeConf.mk
              (Discovery.mk
                 (Discovery.ExportedTagsOnMetrics (ScrapeConf.Discovery c))
                 (defaultRoleArns Job.RoleArns Job.set_RoleArns
                    (Discovery.Jobs (ScrapeConf.Discovery c))))
              (ScrapeConf.Static c) in
          let c :=
            ScrapeConf.mk (ScrapeConf.Discovery c)
              (defaultRoleArns Static.RoleArns Static.set_RoleArns
                 (ScrapeConf.Static c)) in
          let '(warnings, err) := validate c in
          mkLoadResult c warnings err
      end
  end.
End Load.

(** ** The rules in the words of the specification

    Every rule is looked at on its own, and the violations are listed in
    the order the specification gives: the root rule, the discovery jobs in
    sequence, the static jobs in sequence, and inside a job its own rules
    followed by those of its metrics in sequence. The root rule is the one
    [validate] tests (both slices nil). *)

Definition violated (b : bool) (msg : string) : list error :=
  if b then [Errorf msg] else [].

Fixpoint violations_from {A} (rules : nat → A → list error) (start : nat)
    (xs : list A) : list error :=
  match xs with
  | [] => []
  | x :: rest => rules start x ++ violations_from rules (S start) rest
  end.

Definition metricViolations (discovery : option Job.t) (parent : string)
    (metricIdx : nat) (m : Metric.t) : list error :=
  violated (String.eqb (Metric.Name m) EmptyString)
    (metricPrefix m metricIdx parent +:+ ": Name should not be empty")
  ++ violated (len (Metric.Statistics m) =? 0)
    (metricPrefix m metricIdx parent +:+ ": Statistics should not be empty")
  ++ violated (mPeriod m discovery <? 1) (periodMessage m metricIdx parent).

Definition discoveryJobViolations (jobIdx : nat) (j : Job.t) : list error :=
  violated (String.eqb (Job.Type_ j) EmptyString)
    ("Discovery job [" +:+ fmt_d (Z.of_nat jobIdx)
       +:+ "]: Type should not be empty")
  ++ violated
       (negb (String.eqb (Job.Type_ j) EmptyString)
        && negb (stringInSlice (Job.Type_ j) supportedServices))
    ("Discovery job [" +:+ fmt_d (Z.of_nat jobIdx)
       +:+ "]: Service is not in known list!: " +:+ Job.Type_ j)
  ++ violated (len (Job.Regions j) =? 0)
    (discoveryParent j jobIdx +:+ ": Regions should not be empty")
  ++ violated (len (Job.Metrics j) =? 0)
    (discoveryParent j jobIdx +:+ ": Metrics should not be empty")
  ++ violations_from
       (metricViolations (Some j) (discoveryParent j jobIdx)) 0
       (elems (Job.Metrics j)).

Definition staticJobViolations (jobIdx : nat) (j : Static.t) : list error :=
  violated (String.eqb (Static.Name j) EmptyString)
    ("Static job [" +:+ fmt_d (Z.of_nat jobIdx)
       +:+ "]: Name should not be empty")
  ++ violated (String.eqb (Static.Namespace j) EmptyString)
    (staticParent j jobIdx +:+ ": Namespace should not be empty")
  ++ violated (len (Static.Regions j) =? 0)
    (staticParent j jobIdx +:+ ": Regions should not be empty")
  ++ violations_from (metricViolations None (staticParent j jobIdx)) 0
       (elems (Static.Metrics j)).

Definition allViolations (c : ScrapeConf.t) : list error :=
  violated
    (is_nil (Discovery.Jobs (ScrapeConf.Discovery c))
     && is_nil (ScrapeConf.Static c)) rootMessage
  ++ violations_from discoveryJobViolations 0
       (elems (Discovery.Jobs (ScrapeConf.Discovery c)))
  ++ violations_from staticJobViolations 0 (elems (ScrapeConf.Static c)).

(** What the defaulting loops are meant to do to one job. *)
Definition defaultedElem {A} (RoleArns : A → slice string)
    (set_RoleArns : slice string → A → A) (x : A) : A :=
  if len (RoleArns x) =? 0 then set_RoleArns (slice_of [EmptyString]) x
  else x.

Definition defaultedJob (j : Job.t) : Job.t :=
  if len (Job.RoleArns j) =? 0
  then Job.set_RoleArns (slice_of [EmptyString]) j else j.

Definition defaultedStatic (j : Static.t) : Static.t :=
  if len (Static.RoleArns j) =? 0
  then Static.set_RoleArns (slice_of [EmptyString]) j else j.

Definition slice_map {A B} (f : A → B) (s : slice A) : slice B :=
  match s with
  | nil_slice => nil_slice
  | slice_of xs => slice_of (f <$> xs)
  end.

(** The decoded tree [c] with the default applied to every job. *)
Definition defaulted (c : ScrapeConf.t) : ScrapeConf.t :=
  ScrapeConf.mk
    (Discovery.mk
       (Discovery.ExportedTagsOnMetrics (ScrapeConf.Discovery c))
       (slice_map defaultedJob (Discovery.Jobs (ScrapeConf.Discovery c))))
    (slice_map defaultedStatic (ScrapeConf.Static c)).

(** Every error [r] returns was made by [fmt.Errorf]. *)
Definition by_Errorf (r : outcome) : Prop :=
  ∀ e, r.2 = Some e → ∃ msg, e = Errorf msg.

(** The message of [validateDiscoveryJob] for a job whose type is not
    supported. *)
Definition typeMessage (j : Job.t) (jobIdx : nat) : string :=
  if String.eqb (Job.Type_ j) EmptyString
  then "Discovery job [" +:+ fmt_d (Z.of_nat jobIdx)
         +:+ "]: Type should not be empty"
  else "Discovery job [" +:+ fmt_d (Z.of_nat jobIdx)
         +:+ "]: Service is not in known list!: " +:+ Job.Type_ j.

(** ** Example documents

    An environment in which the file is read and decodes to a given tree,
    and the trees of the scenarios of the specification. *)

Definition fileFound : string → list Byte.byte * option string :=
  λ _, ([], None).

Definition decodesTo (c1 : ScrapeConf.t)
    : list Byte.byte → ScrapeConf.t → ScrapeConf.t * option string :=
  λ _ _, (c1, None).

(** [ScrapeConf{}] *)
Definition zeroConf : ScrapeConf.t :=
  ScrapeConf.mk (Discovery.mk None nil_slice) nil_slice.

Definition aMetric (name : string) (statistics : slice string)
    (period length : Z) : Metric.t :=
  Metric.mk name statistics nil_slice period length 0 false false.

Definition aJob (type : string) (regions : slice string)
    (metrics : slice Metric.t) (length period : Z) : Job.t :=
  Job.mk regions type nil_slice nil_slice nil_slice nil_slice metrics length
    0 period false.

Definition aStatic (name namespace : string) (regions : slice string)
    (metrics : slice Metric.t) : Static.t :=
  Static.mk name regions nil_slice namespace nil_slice nil_slice metrics.

Definition aConf (jobs : slice Job.t) (static : slice Static.t)
    : ScrapeConf.t :=
  ScrapeConf.mk (Discovery.mk None jobs) static.

(** [discovery: {jobs: []}] and [static: []]: both slices empty, neither
    nil. *)
Definition emptyLists : ScrapeConf.t := aConf (slice_of []) (slice_of []).

Definition cpuAverage (period length : Z) : Metric.t :=
  aMetric "CPUUtilization" (slice_of ["Average"%string]) period length.

(** Scenario B: an [ec2] discovery job with job-level length 60 and one
    metric of period 300 without a length. *)
Definition scenarioB_job : Job.t :=
  aJob "ec2" (slice_of ["eu-west-1"%string]) (slice_of [cpuAverage 300 0])
    60 0.

Definition scenarioB : ScrapeConf.t :=
  aConf (slice_of [scenarioB_job]) nil_slice.

(** Scenario C: a static job named [x] with an empty namespace. *)
Definition scenarioC_static : Static.t :=
  aStatic "x" EmptyString (slice_of ["eu-west-1"%string])
    (slice_of [cpuAverage 60 60]).

Definition scenarioC : ScrapeConf.t :=
  aConf nil_slice (slice_of [scenarioC_static]).

(** Scenario D: a discovery job of an unknown type. *)
Definition scenarioD_job : Job.t :=
  aJob "notarealservice" (slice_of ["eu-west-1"%string])
    (slice_of [cpuAverage 60 60]) 0 0.

Definition scenarioD : ScrapeConf.t :=
  aConf (slice_of [scenarioD_job]) nil_slice.

(** An [ec2] job without regions in front of the job of scenario D. *)
Definition noRegions_job : Job.t :=
  aJob "ec2" nil_slice (slice_of [cpuAverage 60 60]) 0 0.

Definition noRegionsThenUnknown : ScrapeConf.t :=
  aConf (slice_of [noRegions_job; scenarioD_job]) nil_slice.

(** A discovery job without a type in front of the static job of
    scenario C. *)
Definition noType_job : Job.t :=
  aJob EmptyString (slice_of ["eu-west-1"%string])
    (slice_of [cpuAverage 60 60]) 0 0.

Definition noTypeThenScenarioC : ScrapeConf.t :=
  aConf (slice_of [noType_job]) (slice_of [scenarioC_static]).

(** A metric of period 300 without a name. *)
Definition unnamed300 : Metric.t :=
  aMetric EmptyString (slice_of ["Average"%string]) 300 300.

(** A static job whose only metric has period 0 and no name. *)
Definition unnamed0 : Metric.t :=
  aMetric EmptyString (slice_of ["Average"%string]) 0 0.

Definition unnamed0_static : Static.t :=
  aStatic "x" "AWS/EC2" (slice_of ["eu-west-1"%string])
    (slice_of [unnamed0]).

Definition unnamed0_conf : ScrapeConf.t :=
  aConf nil_slice (slice_of [unnamed0_static]).

(** A static job whose only metric has period 0. *)
Definition period0_static : Static.t :=
  aStatic "x" "AWS/EC2" (slice_of ["eu-west-1"%string])
    (slice_of [cpuAverage 0 60]).

Definition period0_conf : ScrapeConf.t :=
  aConf nil_slice (slice_of [period0_static]).

(** A static job whose only metric has period 60 and length 0. *)
Definition length0_static : Static.t :=
  aStatic "x" "AWS/EC2" (slice_of ["eu-west-1"%string])
    (slice_of [cpuAverage 60 0]).

Definition length0_conf : ScrapeConf.t :=
  aConf nil_slice (slice_of [length0_static]).

(** Two jobs, the first without RoleArns and the second with one. *)
Definition withRole_job : Job.t :=
  Job.set_RoleArns (slice_of ["arn:aws:iam::1:role/r"%string]) scenarioB_job.

Definition twoJobs : ScrapeConf.t :=
  aConf (slice_of [scenarioB_job; withRole_job])
    (slice_of [scenarioC_static]).

(** ** Well-formed configurations

    The conditions the validation functions test, said of a tree rather
    than computed: what a configuration that passes is known to satisfy. *)

Definition metricOK (discovery : option Job.t) (m : Metric.t) : Prop :=
  Metric.Name m ≠ EmptyString
  ∧ len (Metric.Statistics m) ≠ 0
  ∧ 1 ≤ mPeriod m discovery.

Definition discoveryJobOK (j : Job.t) : Prop :=
  Job.Type_ j ≠ EmptyString
  ∧ Job.Type_ j ∈ supportedServices
  ∧ len (Job.Regions j) ≠ 0
  ∧ len (Job.Metrics j) ≠ 0
  ∧ Forall (metricOK (Some j)) (elems (Job.Metrics j)).

Definition staticJobOK (j : Static.t) : Prop :=
  Static.Name j ≠ EmptyString
  ∧ Static.Namespace j ≠ EmptyString
  ∧ len (Static.Regions j) ≠ 0
  ∧ Forall (metricOK None) (elems (Static.Metrics j)).

Definition wellFormed (c : ScrapeConf.t) : Prop :=
  is_nil (Discovery.Jobs (ScrapeConf.Discovery c))
    && is_nil (ScrapeConf.Static c) = false
  ∧ Forall discoveryJobOK (elems (Discovery.Jobs (ScrapeConf.Discovery c)))
  ∧ Forall staticJobOK (elems (ScrapeConf.Static c)).

(** ** The log of a validation that passes *)

Definition metricWarnings (discovery : option Job.t) (parent : string)
    (metricIdx : nat) (m : Metric.t) : list string :=
  if mLength m discovery <? mPeriod m discovery
  then [lengthWarning m metricIdx parent discovery] else [].

Fixpoint warnings_from {A} (warnings : nat → A → list string) (start : nat)
    (xs : list A) : list string :=
  match xs with
  | [] => []
  | x :: rest => warnings start x ++ warnings_from warnings (S start) rest
  end.

Definition discoveryJobWarnings (jobIdx : nat) (j : Job.t) : list string :=
  warnings_from (metricWarnings (Some j) (discoveryParent j jobIdx)) 0
    (elems (Job.Metrics j)).

Definition staticJobWarnings (jobIdx : nat) (j : Static.t) : list string :=
  warnings_from (metricWarnings None (staticParent j jobIdx)) 0
    (elems (Static.Metrics j)).

Definition allWarnings (c : ScrapeConf.t) : list string :=
  warnings_from discoveryJobWarnings 0
    (elems (Discovery.Jobs (ScrapeConf.Discovery c)))
  ++ warnings_from staticJobWarnings 0 (elems (ScrapeConf.Static c)).

(** ** What an error says *)

(** Every error [r] returns satisfies [P]. *)
Definition errors_satisfy (P : error → Prop) (r : outcome) : Prop :=
  ∀ e, r.2 = Some e → P e.

(** [e] was made by [fmt.Errorf] and its message contains [label]. *)
Definition mentions (label : string) (e : error) : Prop :=
  ∃ msg, e = Errorf msg ∧ contains msg label.

(** The label of a discovery job in a message: with its type once the type
    was accepted, with the index alone before. *)
Definition namesDiscoveryJob (j : Job.t) (jobIdx : nat) (e : error) : Prop :=
  mentions ("Discovery job [" +:+ fmt_d (Z.of_nat jobIdx) +:+ "]") e
  ∨ mentions (discoveryParent j jobIdx) e.

Definition namesStaticJob (j : Static.t) (jobIdx : nat) (e : error) : Prop :=
  mentions ("Static job [" +:+ fmt_d (Z.of_nat jobIdx) +:+ "]") e
  ∨ mentions (staticParent j jobIdx) e.

(** A discovery job of period 300 whose only metric has period -60. *)
Definition negativePeriod_job : Job.t :=
  aJob "ec2" (slice_of ["eu-west-1"%string]) (slice_of [cpuAverage (-60) 0])
    300 300.

(** A discovery job with everything but metrics. *)
Definition noMetrics_job : Job.t :=
  aJob "ec2" (slice_of ["eu-west-1"%string]) nil_slice 60 60.

(** A static job with everything but metrics. *)
Definition noMetrics_static : Static.t :=
  aStatic "x" "AWS/EC2" (slice_of ["eu-west-1"%string]) nil_slice.

Definition noMetrics_conf : ScrapeConf.t :=
  aConf nil_slice (slice_of [noMetrics_static]).

(** Two static jobs with short lengths behind the job of scenario B. *)
Definition threeWarnings : ScrapeConf.t :=
  aConf (slice_of [scenarioB_job])
    (slice_of [length0_static; noMetrics_static; length0_static]).

(** An environment in which the file cannot be read, and one in which it
    does not decode and the decoder leaves [c1] behind. *)
Definition fileMissing : string → list Byte.byte * option string :=
  λ _, ([], Some "open config.yml: no such file or directory"%string).

Definition decodeFails (c1 : ScrapeConf.t)
    : list Byte.byte → ScrapeConf.t → ScrapeConf.t * option string :=
  λ _ _, (c1, Some "yaml: unmarshal errors"%string).

(** ** A job and the same job with other RoleArns

    Field by field, every field but RoleArns. *)

Definition sameJobButRoleArns (j j' : Job.t) : Prop :=
  Job.Regions j' = Job.Regions j
  ∧ Job.Type_ j' = Job.Type_ j
  ∧ Job.AwsDimensions j' = Job.AwsDimensions j
  ∧ Job.SearchTags j' = Job.SearchTags j
  ∧ Job.CustomTags j' = Job.CustomTags j
  ∧ Job.Metrics j' = Job.Metrics j
  ∧ Job.Length j' = Job.Length j
  ∧ Job.Delay j' = Job.Delay j
  ∧ Job.Period j' = Job.Period j
  ∧ Job.AddCloudwatchTimestamp j' = Job.AddCloudwatchTimestamp j.

Definition sameStaticButRoleArns (j j' : Static.t) : Prop :=
  Static.Name j' = Static.Name j
  ∧ Static.Regions j' = Static.Regions j
  ∧ Static.Namespace j' = Static.Namespace j
  ∧ Static.CustomTags j' = Static.CustomTags j
  ∧ Static.Dimensions j' = Static.Dimensions j
  ∧ Static.Metrics j' = Static.Metrics j.

(** * Properties *)

(** ** Substrings *)

Lemma prefix_spec (sub s : string) :
  String.prefix sub s = true ↔ ∃ post, s = sub +:+ post.
Proof.
  revert s. induction sub as [|a sub IH]; intros s; simpl.
  - destruct s; split; eauto.
  - destruct s as [|b s]; simpl.
    + split; [discriminate | intros [post H]; discriminate].
    + destruct (Ascii.ascii_dec a b) as [->|Hne].
      * rewrite IH. split; intros [post H]; exists post.
        -- by rewrite H.
        -- by injection H.
      * split; [discriminate | intros [post H]; injection H; congruence].
Qed.

Lemma containsb_spec (s sub : string) :
  containsb s sub = true ↔ contains s sub.
Proof.
  unfold contains. induction s as [|a s IH]; cbn [containsb].
  - rewrite orb_false_r, prefix_spec. split.
    + intros [post H]. by exists EmptyString, post.
    + intros [pre [post H]]. destruct pre; [by exists post | discriminate].
  - rewrite orb_true_iff, prefix_spec, IH. split.
    + intros [[post H] | [pre [post H]]].
      * by exists EmptyString, post.
      * exists (String a pre), post. simpl. by rewrite H.
    + intros [pre [post H]]. destruct pre as [|b pre]; simpl in H.
      * left. by exists post.
      * right. injection H as _ H. by exists pre, post.
Qed.

Lemma not_contains (s sub : string) :
  containsb s sub = false → ¬ contains s sub.
Proof.
  intros Hb Hc. apply (proj2 (containsb_spec s sub)) in Hc. congruence.
Qed.

Lemma string_app_cons (x : ascii) (a b : string) :
  String x a +:+ b = String x (a +:+ b).
Proof. reflexivity. Qed.

Lemma string_app_assoc (a b c : string) : (a +:+ b) +:+ c = a +:+ b +:+ c.
Proof.
  induction a as [|x a IH]; [done|]. by rewrite !string_app_cons, IH.
Qed.

Lemma string_app_nil_r (a : string) : a +:+ EmptyString = a.
Proof.
  induction a as [|x a IH]; [done|]. by rewrite string_app_cons, IH.
Qed.

Lemma contains_here (pre sub post : string) :
  contains (pre +:+ sub +:+ post) sub.
Proof. by exists pre, post. Qed.

Lemma contains_end (pre sub : string) : contains (pre +:+ sub) sub.
Proof. exists pre, EmptyString. by rewrite string_app_nil_r. Qed.

Lemma contains_app_r (a b sub : string) :
  contains b sub → contains (a +:+ b) sub.
Proof.
  intros [pre [post ->]]. exists (a +:+ pre), post.
  by rewrite !string_app_assoc.
Qed.

Lemma eqb_empty_false (s : string) :
  s ≠ EmptyString → String.eqb s EmptyString = false.
Proof. intros H. by apply String.eqb_neq. Qed.

(** ** Sequencing and loops *)

Lemma and_then_err (r k : outcome) :
  (r >>> k).2 = match r.2 with Some e => Some e | None => k.2 end.
Proof. by destruct r as [w [e|]]. Qed.

Lemma and_then_log_ok (r k : outcome) :
  r.2 = None → (r >>> k).1 = r.1 ++ k.1.
Proof. destruct r as [w [e|]]; simpl; [discriminate | done]. Qed.

Lemma when_err (b : bool) (msg : string) :
  (when b (fail msg)).2 = if b then Some (Errorf msg) else None.
Proof. by destruct b. Qed.

Lemma head_app {A} (l k : list A) :
  head (l ++ k) = match head l with Some x => Some x | None => head k end.
Proof. by destruct l. Qed.

Lemma head_violated (b : bool) (msg : string) :
  head (violated b msg) = if b then Some (Errorf msg) else None.
Proof. by destruct b. Qed.

Section range_check.
Context {A : Type} (body : nat → A → outcome).

(** The loop returns the error of the first iteration that has one. *)
Lemma range_check_first_error (start : nat) (xs : list A) (i : nat)
    (x : A) (e : error) :
  (∀ k y, (k < i)%nat → xs !! k = Some y → (body (start + k) y).2 = None) →
  xs !! i = Some x →
  (body (start + i) x).2 = Some e →
  (range_check body start xs).2 = Some e.
Proof.
  revert start i. induction xs as [|y xs IH]; intros start i Hbefore Hi He.
  - done.
  - simpl. rewrite and_then_err. destruct i as [|i]; simpl in Hi.
    + injection Hi as ->. rewrite Nat.add_0_r in He. by rewrite He.
    + specialize (Hbefore 0%nat y ltac:(lia) eq_refl) as Hy.
      rewrite Nat.add_0_r in Hy. rewrite Hy.
      apply (IH (S start) i); [| done |].
      * intros k z Hk Hz. replace (S start + k)%nat with (start + S k)%nat
          by lia. apply Hbefore; [lia | done].
      * by replace (S start + i)%nat with (start + S i)%nat by lia.
Qed.

(** An iteration with an error makes the loop return an error. *)
Lemma range_check_fails (start : nat) (xs : list A) (i : nat) (x : A) :
  xs !! i = Some x →
  is_Some (body (start + i) x).2 →
  is_Some (range_check body start xs).2.
Proof.
  revert start i. induction xs as [|y xs IH]; intros start i Hi He.
  - done.
  - simpl. rewrite and_then_err.
    destruct (body start y).2 as [e|] eqn:Hy; [by eexists|].
    destruct i as [|i]; simpl in Hi.
    + injection Hi as ->. rewrite Nat.add_0_r, Hy in He.
      by destruct He.
    + apply (IH (S start) i); [done|].
      by replace (S start + i)%nat with (start + S i)%nat by lia.
Qed.

(** A loop that returns nil ran every iteration, none had an error, and
    what each logged is in the log. *)
Lemma range_check_ok_inv (start : nat) (xs : list A) (i : nat) (x : A) :
  (range_check body start xs).2 = None →
  xs !! i = Some x →
  (body (start + i) x).2 = None
  ∧ (body (start + i) x).1 ⊆ (range_check body start xs).1.
Proof.
  revert start i. induction xs as [|y xs IH]; intros start i Hok Hi.
  - done.
  - simpl in Hok. rewrite and_then_err in Hok.
    destruct (body start y).2 as [e|] eqn:Hy; [discriminate|].
    simpl. rewrite (and_then_log_ok _ _ Hy).
    destruct i as [|i]; simpl in Hi.
    + injection Hi as ->. rewrite Nat.add_0_r. split; [done|].
      intros w Hw. apply elem_of_app. by left.
    + destruct (IH (S start) i Hok Hi) as [H1 H2].
      replace (start + S i)%nat with (S start + i)%nat by lia.
      split; [done|]. intros w Hw. apply elem_of_app. right. by apply H2.
Qed.

(** The loop against the list of violations: when each iteration
    returns the first violation of its element, the loop returns the
    first violation of the sequence. *)
Lemma range_check_head (rules : nat → A → list error) (start : nat)
    (xs : list A) :
  (∀ idx x, (body idx x).2 = head (rules idx x)) →
  (range_check body start xs).2 = head (violations_from rules start xs).
Proof.
  intros Hbody. revert start. induction xs as [|y xs IH]; intros start.
  - done.
  - simpl. by rewrite and_then_err, head_app, Hbody, IH.
Qed.
End range_check.

(** ** The defaulting loops *)

Section defaultRoleArns.
Context {A : Type} (RoleArns : A → slice string)
  (set_RoleArns : slice string → A → A).

Local Abbreviation defaultedElem := (defaultedElem RoleArns set_RoleArns).

Lemma defaultRoleArns_loop_step (todo n : nat) (xs : list A) :
  defaultRoleArns_loop RoleArns set_RoleArns (S todo) n xs
  = defaultRoleArns_loop RoleArns set_RoleArns todo (S n)
      (alter defaultedElem n xs).
Proof.
  simpl. f_equal. apply list_eq. intros i.
  destruct (decide (n = i)) as [<-|Hne].
  - rewrite list_lookup_alter_eq. unfold defaultedElem.
    destruct (xs !! n) as [job|] eqn:Hn; [|by rewrite Hn].
    simpl. destruct (len (RoleArns job) =? 0) eqn:Hlen.
    + by rewrite list_lookup_alter_eq, Hn.
    + by rewrite Hn.
  - rewrite list_lookup_alter_ne by done.
    destruct (xs !! n) as [job|]; [|done].
    destruct (len (RoleArns job) =? 0); [|done].
    by rewrite list_lookup_alter_ne.
Qed.

(** The loop touches the indices it ranges over, each once, and no
    other. *)
Lemma defaultRoleArns_loop_lookup (todo n : nat) (xs : list A) (i : nat) :
  defaultRoleArns_loop RoleArns set_RoleArns todo n xs !! i
  = if decide (n ≤ i < n + todo)%nat then defaultedElem <$> xs !! i
    else xs !! i.
Proof.
  revert n xs. induction todo as [|todo IH]; intros n xs.
  - simpl. case_decide; [lia | done].
  - rewrite defaultRoleArns_loop_step, IH.
    destruct (decide (n = i)) as [<-|Hne].
    + rewrite list_lookup_alter_eq. repeat case_decide; (done || lia).
    + rewrite list_lookup_alter_ne by done.
      repeat case_decide; (done || lia).
Qed.

Lemma defaultRoleArns_elems (s : slice A) :
  defaultRoleArns RoleArns set_RoleArns s
  = match s with
    | nil_slice => nil_slice
    | slice_of xs => slice_of (defaultedElem <$> xs)
    end.
Proof.
  destruct s as [|xs]; [done|]. simpl. f_equal. apply list_eq. intros i.
  rewrite defaultRoleArns_loop_lookup, list_lookup_fmap.
  case_decide as Hi; [done|].
  rewrite (lookup_ge_None_2 xs i) by lia. done.
Qed.
End defaultRoleArns.

Lemma defaultRoleArns_jobs (s : slice Job.t) :
  defaultRoleArns Job.RoleArns Job.set_RoleArns s = slice_map defaultedJob s.
Proof. by rewrite defaultRoleArns_elems. Qed.

Lemma defaultRoleArns_static (s : slice Static.t) :
  defaultRoleArns Static.RoleArns Static.set_RoleArns s
  = slice_map defaultedStatic s.
Proof. by rewrite defaultRoleArns_elems. Qed.

(** [Load] once the file was read and decoded: the receiver is the decoded
    tree after the two loops, whatever [validate] returns. *)
Lemma Load_decoded ReadFile Unmarshal (c : ScrapeConf.t) (file : string)
    (yamlFile : list Byte.byte) (c1 : ScrapeConf.t) :
  ReadFile file = (yamlFile, None) →
  Unmarshal yamlFile c = (c1, None) →
  Load ReadFile Unmarshal c file
  = mkLoadResult (defaulted c1) (validate (defaulted c1)).1
      (validate (defaulted c1)).2.
Proof.
  intros Hread Hdecode. unfold Load. rewrite Hread, Hdecode. simpl.
  rewrite defaultRoleArns_jobs, defaultRoleArns_static.
  fold (defaulted c1). by destruct (validate (defaulted c1)).
Qed.

(** ** [validate] returns the first violation *)

Lemma validateMetric_head (m : Metric.t) (metricIdx : nat) (parent : string)
    (discovery : option Job.t) :
  (validateMetric m metricIdx parent discovery).2
  = head (metricViolations discovery parent metricIdx m).
Proof.
  unfold validateMetric, metricViolations.
  rewrite !and_then_err, !head_app, !when_err, !head_violated.
  destruct (String.eqb _ _); [done|].
  destruct (len _ =? 0); [done|].
  destruct (mPeriod _ _ <? 1); [done|].
  by destruct (mLength _ _ <? _).
Qed.

Lemma validateDiscoveryJob_head (j : Job.t) (jobIdx : nat) :
  (validateDiscoveryJob j jobIdx).2 = head (discoveryJobViolations jobIdx j).
Proof.
  unfold validateDiscoveryJob, discoveryJobViolations.
  rewrite !and_then_err, !head_app, !when_err, !head_violated.
  rewrite (range_check_head _ (metricViolations (Some j)
             (discoveryParent j jobIdx)))
    by (intros; apply validateMetric_head).
  destruct (String.eqb (Job.Type_ j) EmptyString); cbn [negb andb fst snd];
    [done|].
  rewrite when_err.
  destruct (stringInSlice (Job.Type_ j) supportedServices);
    cbn [negb andb fst snd]; [|done].
  destruct (len (Job.Regions j) =? 0); [done|].
  destruct (len (Job.Metrics j) =? 0); [done|].
  by destruct (head _).
Qed.

Lemma validateStaticJob_head (j : Static.t) (jobIdx : nat) :
  (validateStaticJob j jobIdx).2 = head (staticJobViolations jobIdx j).
Proof.
  unfold validateStaticJob, staticJobViolations.
  rewrite !and_then_err, !head_app, !when_err, !head_violated.
  rewrite (range_check_head _ (metricViolations None
             (staticParent j jobIdx)))
    by (intros; apply validateMetric_head).
  destruct (String.eqb (Static.Name j) EmptyString); [done|].
  destruct (String.eqb (Static.Namespace j) EmptyString); [done|].
  destruct (len (Static.Regions j) =? 0); [done|].
  by destruct (head _).
Qed.

Lemma validate_head (c : ScrapeConf.t) :
  (validate c).2 = head (allViolations c).
Proof.
  unfold validate, allViolations.
  rewrite !and_then_err, !head_app, !when_err, !head_violated.
  destruct (Discovery.Jobs (ScrapeConf.Discovery c)) as [|jobs];
    destruct (ScrapeConf.Static c) as [|static]; simpl; try done.
  - rewrite (range_check_head _ staticJobViolations)
      by (intros; apply validateStaticJob_head).
    by destruct (head _).
  - rewrite (range_check_head _ discoveryJobViolations)
      by (intros; apply validateDiscoveryJob_head).
    by destruct (head _).
  - rewrite (range_check_head _ discoveryJobViolations)
      by (intros; apply validateDiscoveryJob_head).
    rewrite (range_check_head _ staticJobViolations)
      by (intros; apply validateStaticJob_head).
    destruct (head (violations_from discoveryJobViolations _ _)); [done|].
    by destruct (head (violations_from staticJobViolations _ _)).
Qed.

(** ** Validation does not read RoleArns *)

Lemma range_check_fmap {A B} (f : A → B) (body : nat → B → outcome)
    (start : nat) (xs : list A) :
  range_check body start (f <$> xs)
  = range_check (λ idx x, body idx (f x)) start xs.
Proof.
  revert start. induction xs as [|x xs IH]; intros start; [done|].
  simpl. by rewrite IH.
Qed.

Lemma range_check_ext {A} (body body' : nat → A → outcome) (start : nat)
    (xs : list A) :
  (∀ idx x, body idx x = body' idx x) →
  range_check body start xs = range_check body' start xs.
Proof.
  intros Hext. revert start. induction xs as [|x xs IH]; intros start;
    [done|].
  simpl. by rewrite Hext, IH.
Qed.

Lemma validateDiscoveryJob_defaulted (j : Job.t) (jobIdx : nat) :
  validateDiscoveryJob (defaultedJob j) jobIdx = validateDiscoveryJob j jobIdx.
Proof.
  unfold defaultedJob. by destruct (len (Job.RoleArns j) =? 0).
Qed.

Lemma validateStaticJob_defaulted (j : Static.t) (jobIdx : nat) :
  validateStaticJob (defaultedStatic j) jobIdx = validateStaticJob j jobIdx.
Proof.
  unfold defaultedStatic. by destruct (len (Static.RoleArns j) =? 0).
Qed.

Lemma validate_defaulted (c : ScrapeConf.t) :
  validate (defaulted c) = validate c.
Proof.
  destruct c as [[etm jobs] static]. unfold validate, defaulted. simpl.
  f_equal; [by destruct jobs, static|]. f_equal.
  - destruct jobs as [|jobs]; [done|]. simpl. rewrite range_check_fmap.
    apply range_check_ext. intros. apply validateDiscoveryJob_defaulted.
  - f_equal. destruct static as [|static]; [done|]. simpl.
    rewrite range_check_fmap. apply range_check_ext. intros.
    apply validateStaticJob_defaulted.
Qed.

(** [Load] after a successful read and decode, in terms of the decoded
    tree. *)
Lemma Load_validate ReadFile Unmarshal (c : ScrapeConf.t) (file : string)
    (yamlFile : list Byte.byte) (c1 : ScrapeConf.t) :
  ReadFile file = (yamlFile, None) →
  Unmarshal yamlFile c = (c1, None) →
  Load ReadFile Unmarshal c file
  = mkLoadResult (defaulted c1) (validate c1).1 (validate c1).2.
Proof.
  intros Hread Hdecode.
  by rewrite (Load_decoded _ _ _ _ _ _ Hread Hdecode), validate_defaulted.
Qed.

(** ** Every error of [validate] comes from [fmt.Errorf] *)

Lemma by_Errorf_ok : by_Errorf ok.
Proof. by intros e. Qed.

Lemma by_Errorf_fail (msg : string) : by_Errorf (fail msg).
Proof. intros e [= <-]. by exists msg. Qed.

Lemma by_Errorf_when (b : bool) (r : outcome) :
  by_Errorf r → by_Errorf (when b r).
Proof. destruct b; [done | intros _; apply by_Errorf_ok]. Qed.

Lemma by_Errorf_and_then (r k : outcome) :
  by_Errorf r → by_Errorf k → by_Errorf (r >>> k).
Proof.
  intros Hr Hk e. rewrite and_then_err.
  destruct r.2 as [e'|] eqn:He'; [intros [= <-]; by apply Hr | apply Hk].
Qed.

Lemma by_Errorf_range_check {A} (body : nat → A → outcome) (start : nat)
    (xs : list A) :
  (∀ idx x, by_Errorf (body idx x)) → by_Errorf (range_check body start xs).
Proof.
  intros Hbody. revert start. induction xs as [|x xs IH]; intros start.
  - apply by_Errorf_ok.
  - simpl. by apply by_Errorf_and_then.
Qed.

Lemma by_Errorf_validateMetric m metricIdx parent discovery :
  by_Errorf (validateMetric m metricIdx parent discovery).
Proof.
  unfold validateMetric.
  repeat (apply by_Errorf_and_then || apply by_Errorf_when
          || apply by_Errorf_fail || apply by_Errorf_ok).
Qed.

Lemma by_Errorf_validateDiscoveryJob j jobIdx :
  by_Errorf (validateDiscoveryJob j jobIdx).
Proof.
  unfold validateDiscoveryJob.
  repeat (apply by_Errorf_and_then || apply by_Errorf_when
          || apply by_Errorf_fail || apply by_Errorf_ok
          || (apply by_Errorf_range_check; intros;
              apply by_Errorf_validateMetric)).
  destruct (negb _);
    [apply by_Errorf_when, by_Errorf_fail | apply by_Errorf_fail].
Qed.

Lemma by_Errorf_validateStaticJob j jobIdx :
  by_Errorf (validateStaticJob j jobIdx).
Proof.
  unfold validateStaticJob.
  repeat (apply by_Errorf_and_then || apply by_Errorf_when
          || apply by_Errorf_fail || apply by_Errorf_ok
          || (apply by_Errorf_range_check; intros;
              apply by_Errorf_validateMetric)).
Qed.

Lemma by_Errorf_validate c : by_Errorf (validate c).
Proof.
  unfold validate.
  repeat (apply by_Errorf_and_then || apply by_Errorf_when
          || apply by_Errorf_fail || apply by_Errorf_ok
          || (apply by_Errorf_range_check; intros;
              (apply by_Errorf_validateDiscoveryJob
               || apply by_Errorf_validateStaticJob))).
Qed.

(** ** Where an error of [validate] comes from *)

Lemma range_check_all_ok {A} (body : nat → A → outcome) (start : nat)
    (xs : list A) :
  (∀ i x, xs !! i = Some x → (body (start + i)%nat x).2 = None) →
  (range_check body start xs).2 = None.
Proof.
  revert start. induction xs as [|y xs IH]; intros start Hall; [done|].
  simpl. rewrite and_then_err.
  specialize (Hall 0%nat y eq_refl) as Hy. rewrite Nat.add_0_r in Hy.
  rewrite Hy. apply IH. intros i x Hi.
  replace (S start + i)%nat with (start + S i)%nat by lia. by apply Hall.
Qed.

Lemma stringInSlice_spec (a : string) (list : list string) :
  stringInSlice a list = true ↔ a ∈ list.
Proof.
  induction list as [|b list IH]; simpl.
  - split; [discriminate | by intros ?%elem_of_nil].
  - rewrite elem_of_cons. destruct (String.eqb b a) eqn:Hb.
    + apply String.eqb_eq in Hb. split; [by left | done].
    + apply String.eqb_neq in Hb. rewrite IH. split; [by right|].
      intros [->|H]; [done | exact H].
Qed.

Lemma is_Some_Errorf (r : outcome) :
  by_Errorf r → is_Some r.2 → ∃ msg, r.2 = Some (Errorf msg).
Proof. intros Hr [e He]. destruct (Hr e He) as [msg ->]. by exists msg. Qed.

Section validate_order.
Context (c : ScrapeConf.t).
Local Abbreviation jobs := (elems (Discovery.Jobs (ScrapeConf.Discovery c))).
Local Abbreviation static := (elems (ScrapeConf.Static c)).

Lemma validate_jobs_err :
jobs ≠ [] ∨ static ≠ [] →
(validate c).2
= match (range_check (λ idx job, validateDiscoveryJob job idx) 0 jobs).2
  with
  | Some e => Some e
  | None =>
      (range_check (λ idx job, validateStaticJob job idx) 0 static).2
  end.
Proof.
intros Hne. unfold validate. rewrite !and_then_err.
destruct (Discovery.Jobs (ScrapeConf.Discovery c)) as [|js];
  destruct (ScrapeConf.Static c) as [|ss]; simpl in *.
- by destruct Hne.
- by destruct (range_check _ 0 ss).2.
- by destruct (range_check _ 0 js).2.
- destruct (range_check _ 0 js).2; [done|].
  by destruct (range_check _ 0 ss).2.
Qed.

(** A discovery job that fails makes [validate] fail. *)
Lemma validate_discovery_fails (i : nat) (j : Job.t) :
jobs !! i = Some j →
is_Some (validateDiscoveryJob j i).2 →
is_Some (validate c).2.
Proof.
intros Hi He. rewrite validate_jobs_err
  by (left; intros Hnil; by rewrite Hnil in Hi).
destruct (range_check_fails (λ idx job, validateDiscoveryJob job idx)
            0 jobs i j Hi He) as [e ->].
by eexists.
Qed.

(** The first discovery job that fails decides the error. *)
Lemma validate_discovery_first (i : nat) (j : Job.t) (e : error) :
jobs !! i = Some j →
(∀ k jk, (k < i)%nat → jobs !! k = Some jk →
   (validateDiscoveryJob jk k).2 = None) →
(validateDiscoveryJob j i).2 = Some e →
(validate c).2 = Some e.
Proof.
intros Hi Hbefore He. rewrite validate_jobs_err
  by (left; intros Hnil; by rewrite Hnil in Hi).
by rewrite (range_check_first_error
              (λ idx job, validateDiscoveryJob job idx) 0 jobs i j e).
Qed.

(** A static job that fails makes [validate] fail. *)
Lemma validate_static_fails (i : nat) (sj : Static.t) :
static !! i = Some sj →
is_Some (validateStaticJob sj i).2 →
is_Some (validate c).2.
Proof.
intros Hi He. rewrite validate_jobs_err
  by (right; intros Hnil; by rewrite Hnil in Hi).
destruct (range_check _ 0 jobs).2; [by eexists|].
by apply (range_check_fails (λ idx job, validateStaticJob job idx)
            0 static i sj).
Qed.

(** When every discovery job passes, the first static job that fails
  decides the error. *)
Lemma validate_static_first (i : nat) (sj : Static.t) (e : error) :
(∀ k j, jobs !! k = Some j → (validateDiscoveryJob j k).2 = None) →
static !! i = Some sj →
(∀ k sk, (k < i)%nat → static !! k = Some sk →
   (validateStaticJob sk k).2 = None) →
(validateStaticJob sj i).2 = Some e →
(validate c).2 = Some e.
Proof.
intros Hjobs Hi Hbefore He. rewrite validate_jobs_err
  by (right; intros Hnil; by rewrite Hnil in Hi).
rewrite (range_check_all_ok (λ idx job, validateDiscoveryJob job idx))
  by (intros; by apply Hjobs).
by rewrite (range_check_first_error
              (λ idx job, validateStaticJob job idx) 0 static i sj e).
Qed.
End validate_order.

(** A metric that fails makes its static job fail. *)
Lemma validateStaticJob_metric_fails (sj : Static.t) (i k : nat)
    (m : Metric.t) :
  elems (Static.Metrics sj) !! k = Some m →
  is_Some (validateMetric m k (staticParent sj i) None).2 →
  is_Some (validateStaticJob sj i).2.
Proof.
  intros Hk He. unfold validateStaticJob. rewrite !and_then_err, !when_err.
  destruct (String.eqb (Static.Name sj) EmptyString); [by eexists|].
  destruct (String.eqb (Static.Namespace sj) EmptyString); [by eexists|].
  destruct (len (Static.Regions sj) =? 0); [by eexists|].
  destruct (range_check_fails
              (λ metricIdx metric,
                 validateMetric metric metricIdx (staticParent sj i) None)
              0 _ k m Hk He) as [e ->].
  by eexists.
Qed.

(** In a static job that passes its own rules, the first metric that fails
    decides the error. *)
Lemma validateStaticJob_metric_first (sj : Static.t) (i k : nat)
    (m : Metric.t) (e : error) :
  Static.Name sj ≠ EmptyString →
  Static.Namespace sj ≠ EmptyString →
  len (Static.Regions sj) ≠ 0 →
  elems (Static.Metrics sj) !! k = Some m →
  (∀ k' m', (k' < k)%nat → elems (Static.Metrics sj) !! k' = Some m' →
     (validateMetric m' k' (staticParent sj i) None).2 = None) →
  (validateMetric m k (staticParent sj i) None).2 = Some e →
  (validateStaticJob sj i).2 = Some e.
Proof.
  intros Hname Hns Hregions Hk Hbefore He. unfold validateStaticJob.
  rewrite !and_then_err, !when_err.
  rewrite (eqb_empty_false _ Hname), (eqb_empty_false _ Hns).
  rewrite (proj2 (Z.eqb_neq _ _) Hregions).
  by rewrite (range_check_first_error
                (λ metricIdx metric,
                   validateMetric metric metricIdx (staticParent sj i) None)
                0 _ k m e).
Qed.

(** The error of [validateMetric] for a metric with a name and
    statistics. *)
Lemma validateMetric_named (m : Metric.t) (metricIdx : nat)
    (parent : string) (discovery : option Job.t) :
  Metric.Name m ≠ EmptyString →
  len (Metric.Statistics m) ≠ 0 →
  validateMetric m metricIdx parent discovery
  = if mPeriod m discovery <? 1 then fail (periodMessage m metricIdx parent)
    else if mLength m discovery <? mPeriod m discovery
         then Warningf (lengthWarning m metricIdx parent discovery)
         else ok.
Proof.
  intros Hname Hstats. unfold validateMetric.
  rewrite (eqb_empty_false _ Hname), (proj2 (Z.eqb_neq _ _) Hstats).
  simpl. destruct (mPeriod m discovery <? 1); [done|].
  by destruct (mLength m discovery <? mPeriod m discovery).
Qed.

(** A metric whose effective period is below 1 fails, whatever else is
    wrong with it. *)
Lemma validateMetric_period_fails (m : Metric.t) (metricIdx : nat)
    (parent : string) (discovery : option Job.t) :
  mPeriod m discovery < 1 →
  is_Some (validateMetric m metricIdx parent discovery).2.
Proof.
  intros Hp. rewrite validateMetric_head. unfold metricViolations.
  rewrite !head_app, !head_violated.
  destruct (String.eqb _ _); [by eexists|].
  destruct (len _ =? 0); [by eexists|].
  rewrite (proj2 (Z.ltb_lt _ _) Hp). by eexists.
Qed.

(** * The claims *)

(** The root test of [validate] on two nil slices. *)
Lemma validate_both_nil (c : ScrapeConf.t) :
  Discovery.Jobs (ScrapeConf.Discovery c) = nil_slice →
  ScrapeConf.Static c = nil_slice →
  validate c = fail rootMessage.
Proof. intros Hjobs Hstatic. unfold validate. by rewrite Hjobs, Hstatic. Qed.

(** After a successful read and decode, two empty slices of which one is
    not nil get past the root test, and [Load] returns nil. *)
Lemma Load_empty_not_nil ReadFile Unmarshal (c : ScrapeConf.t)
    (file : string) (yamlFile : list Byte.byte) (c1 : ScrapeConf.t) :
  ReadFile file = (yamlFile, None) →
  Unmarshal yamlFile c = (c1, None) →
  elems (Discovery.Jobs (ScrapeConf.Discovery c1)) = [] →
  elems (ScrapeConf.Static c1) = [] →
  is_nil (Discovery.Jobs (ScrapeConf.Discovery c1))
    && is_nil (ScrapeConf.Static c1) = false →
  returned (Load ReadFile Unmarshal c file) = None
  ∧ logged (Load ReadFile Unmarshal c file) = [].
Proof.
  intros Hread Hdecode Hjobs Hstatic Hnil.
  rewrite (Load_validate _ _ _ _ _ _ Hread Hdecode).
  cbn [returned logged]. unfold validate. rewrite Hjobs, Hstatic, Hnil.
  by destruct (is_nil (Discovery.Jobs (ScrapeConf.Discovery c1))),
    (is_nil (ScrapeConf.Static c1)).
Qed.

Example emptyLists_loads :
  Load fileFound (decodesTo emptyLists) zeroConf "config.yml"
  = mkLoadResult emptyLists [] None.
Proof. reflexivity. Qed.

(** C1, the code on the failing input. A document that sets
    [discovery.jobs: []] and [static: []] decodes to two empty slices that
    are not nil; [validate] tests [== nil], so the root error is not
    raised: [Load] returns nil, logs nothing and leaves the decoded tree
    in the receiver. *)
Theorem Load_empty_lists_returns_nil
    (etm : exportedTagsOnMetrics) (c : ScrapeConf.t) (file : string) :
  let c1 := ScrapeConf.mk (Discovery.mk etm (slice_of [])) (slice_of []) in
  len (Discovery.Jobs (ScrapeConf.Discovery c1)) = 0
  ∧ len (ScrapeConf.Static c1) = 0
  ∧ validate c1 = ([], None)
  ∧ Load fileFound (decodesTo c1) c file = mkLoadResult c1 [] None.
Proof. by intros c1. Qed.

(** C2. After a successful read and decode, the receiver [Load] leaves
    holds, at every index, the decoded job: with RoleArns equal to the
    one-element list of the empty string (and nothing else changed) when
    its RoleArns list was empty, and unchanged otherwise. This holds for the
    discovery jobs and for the static jobs, and no job is added or
    removed. *)
Theorem Load_defaults_RoleArns ReadFile Unmarshal (c : ScrapeConf.t)
    (file : string) (yamlFile : list Byte.byte) (c1 : ScrapeConf.t) :
  ReadFile file = (yamlFile, None) →
  Unmarshal yamlFile c = (c1, None) →
  let c' := receiver (Load ReadFile Unmarshal c file) in
  (∀ i job,
     elems (Discovery.Jobs (ScrapeConf.Discovery c1)) !! i = Some job →
     ∃ job',
       elems (Discovery.Jobs (ScrapeConf.Discovery c')) !! i = Some job'
       ∧ (len (Job.RoleArns job) = 0 →
          Job.RoleArns job' = slice_of [EmptyString]
          ∧ job' = Job.set_RoleArns (slice_of [EmptyString]) job)
       ∧ (len (Job.RoleArns job) ≠ 0 → job' = job))
  ∧ (∀ i job,
       elems (ScrapeConf.Static c1) !! i = Some job →
       ∃ job',
         elems (ScrapeConf.Static c') !! i = Some job'
         ∧ (len (Static.RoleArns job) = 0 →
            Static.RoleArns job' = slice_of [EmptyString]
            ∧ job' = Static.set_RoleArns (slice_of [EmptyString]) job)
         ∧ (len (Static.RoleArns job) ≠ 0 → job' = job))
  ∧ length (elems (Discovery.Jobs (ScrapeConf.Discovery c')))
    = length (elems (Discovery.Jobs (ScrapeConf.Discovery c1)))
  ∧ length (elems (ScrapeConf.Static c'))
    = length (elems (ScrapeConf.Static c1)).
Proof.
  intros Hread Hdecode c'. subst c'.
  rewrite (Load_validate _ _ _ _ _ _ Hread Hdecode). simpl.
  destruct c1 as [[etm jobs] static]. simpl.
  repeat split.
  - intros i job Hi. exists (defaultedJob job). split.
    + destruct jobs as [|js]; [done|]. simpl in *.
      by rewrite list_lookup_fmap, Hi.
    + unfold defaultedJob. split; intros Hlen.
      * by rewrite Hlen.
      * by rewrite (proj2 (Z.eqb_neq _ _) Hlen).
  - intros i job Hi. exists (defaultedStatic job). split.
    + destruct static as [|ss]; [done|]. simpl in *.
      by rewrite list_lookup_fmap, Hi.
    + unfold defaultedStatic. split; intros Hlen.
      * by rewrite Hlen.
      * by rewrite (proj2 (Z.eqb_neq _ _) Hlen).
  - destruct jobs as [|js]; [done|]. simpl. apply length_fmap.
  - destruct static as [|ss]; [done|]. simpl. apply length_fmap.
Qed.

Lemma Load_defaults_RoleArns_witness :
  let c' :=
    receiver (Load fileFound (decodesTo twoJobs) zeroConf "config.yml") in
  (∃ job',
     elems (Discovery.Jobs (ScrapeConf.Discovery c')) !! 0%nat = Some job'
     ∧ (len (Job.RoleArns scenarioB_job) = 0 →
        Job.RoleArns job' = slice_of [EmptyString]
        ∧ job' = Job.set_RoleArns (slice_of [EmptyString]) scenarioB_job)
     ∧ (len (Job.RoleArns scenarioB_job) ≠ 0 → job' = scenarioB_job))
  ∧ (∃ job',
       elems (Discovery.Jobs (ScrapeConf.Discovery c')) !! 1%nat = Some job'
       ∧ (len (Job.RoleArns withRole_job) = 0 →
          Job.RoleArns job' = slice_of [EmptyString]
          ∧ job' = Job.set_RoleArns (slice_of [EmptyString]) withRole_job)
       ∧ (len (Job.RoleArns withRole_job) ≠ 0 → job' = withRole_job)).
Proof.
  destruct (Load_defaults_RoleArns fileFound (decodesTo twoJobs) zeroConf
              "config.yml" [] twoJobs eq_refl eq_refl) as [Hjobs _].
  split.
  - exact (Hjobs 0%nat scenarioB_job eq_refl).
  - exact (Hjobs 1%nat withRole_job eq_refl).
Defined.

(** C8. [validate] returns the first entry of the list of violations taken
    in the order of the specification (root rule, discovery jobs in
    sequence, static jobs in sequence, each job followed by its metrics in
    sequence), and nil when that list is empty: whenever a violation [e] is
    first in that order, [e] is the error returned, whatever follows it.
    Being a function of the configuration, the result is determined by
    it. *)
Theorem validate_fail_fast (c : ScrapeConf.t) :
  (validate c).2 = head (allViolations c)
  ∧ (∀ e later, allViolations c = e :: later → (validate c).2 = Some e)
  ∧ (allViolations c = [] → (validate c).2 = None)
  ∧ (∀ e, (validate c).2 = Some e → ∃ later, allViolations c = e :: later).
Proof.
  pose proof (validate_head c) as Hhead. repeat split.
  - done.
  - intros e later Hall. by rewrite Hhead, Hall.
  - intros Hall. by rewrite Hhead, Hall.
  - intros e He. rewrite Hhead in He.
    destruct (allViolations c) as [|e' later]; [done|].
    injection He as ->. by exists later.
Qed.

Lemma validate_fail_fast_witness :
  allViolations noTypeThenScenarioC
  = [Errorf "Discovery job [0]: Type should not be empty";
     Errorf "Static job [x/0]: Namespace should not be empty"]
  ∧ (validate noTypeThenScenarioC).2
    = Some (Errorf "Discovery job [0]: Type should not be empty").
Proof.
  split; [reflexivity|].
  destruct (validate_fail_fast noTypeThenScenarioC) as [_ [Hfirst _]].
  apply (Hfirst _ [Errorf "Static job [x/0]: Namespace should not be empty"]).
  reflexivity.
Defined.

(** C10. When the file is read and decoded and [Load] returns an error,
    that error is the one [validate] returns on the receiver as [Load]
    leaves it, and it comes from [fmt.Errorf]. The receiver is not rolled
    back or cleared: it holds the decoded tree, the same tag map, the same
    slices (nil where they were nil, as long as they were), and at every
    index the decoded job with every field but RoleArns as decoded; its
    RoleArns is the one-element list of the empty string where the decoded
    list was empty, and the decoded list otherwise. *)
Theorem Load_keeps_receiver_on_failure ReadFile Unmarshal
    (c : ScrapeConf.t) (file : string) (yamlFile : list Byte.byte)
    (c1 : ScrapeConf.t) (e : error) :
  ReadFile file = (yamlFile, None) →
  Unmarshal yamlFile c = (c1, None) →
  returned (Load ReadFile Unmarshal c file) = Some e →
  let c' := receiver (Load ReadFile Unmarshal c file) in
  c' = defaulted c1
  ∧ (validate c').2 = Some e
  ∧ (∃ msg, e = Errorf msg)
  ∧ Discovery.ExportedTagsOnMetrics (ScrapeConf.Discovery c')
    = Discovery.ExportedTagsOnMetrics (ScrapeConf.Discovery c1)
  ∧ is_nil (Discovery.Jobs (ScrapeConf.Discovery c'))
    = is_nil (Discovery.Jobs (ScrapeConf.Discovery c1))
  ∧ is_nil (ScrapeConf.Static c') = is_nil (ScrapeConf.Static c1)
  ∧ length (elems (Discovery.Jobs (ScrapeConf.Discovery c')))
    = length (elems (Discovery.Jobs (ScrapeConf.Discovery c1)))
  ∧ length (elems (ScrapeConf.Static c'))
    = length (elems (ScrapeConf.Static c1))
  ∧ (∀ i job,
       elems (Discovery.Jobs (ScrapeConf.Discovery c1)) !! i = Some job →
       ∃ job',
         elems (Discovery.Jobs (ScrapeConf.Discovery c')) !! i = Some job'
         ∧ sameJobButRoleArns job job'
         ∧ (len (Job.RoleArns job) = 0 →
            Job.RoleArns job' = slice_of [EmptyString])
         ∧ (len (Job.RoleArns job) ≠ 0 →
            Job.RoleArns job' = Job.RoleArns job))
  ∧ (∀ i job,
       elems (ScrapeConf.Static c1) !! i = Some job →
       ∃ job',
         elems (ScrapeConf.Static c') !! i = Some job'
         ∧ sameStaticButRoleArns job job'
         ∧ (len (Static.RoleArns job) = 0 →
            Static.RoleArns job' = slice_of [EmptyString])
         ∧ (len (Static.RoleArns job) ≠ 0 →
            Static.RoleArns job' = Static.RoleArns job)).
Proof.
  intros Hread Hdecode. rewrite (Load_decoded _ _ _ _ _ _ Hread Hdecode).
  cbn [returned receiver]. intros He. cbv zeta.
  split; [done|]. split; [done|].
  split; [by apply (by_Errorf_validate (defaulted c1))|].
  destruct c1 as [[etm jobs] static]. unfold defaulted.
  cbn [ScrapeConf.Discovery ScrapeConf.Static Discovery.Jobs
       Discovery.ExportedTagsOnMetrics].
  split; [done|]. split; [by destruct jobs|]. split; [by destruct static|].
  split; [destruct jobs as [|js]; [done | apply length_fmap]|].
  split; [destruct static as [|ss]; [done | apply length_fmap]|].
  split.
  - intros i job Hi. exists (defaultedJob job). split.
    + destruct jobs as [|js]; [done|]. simpl in *.
      by rewrite list_lookup_fmap, Hi.
    + unfold defaultedJob, sameJobButRoleArns.
      destruct (Z.eqb_spec (len (Job.RoleArns job)) 0) as [Hz|Hnz];
        by split_and!.
  - intros i job Hi. exists (defaultedStatic job). split.
    + destruct static as [|ss]; [done|]. simpl in *.
      by rewrite list_lookup_fmap, Hi.
    + unfold defaultedStatic, sameStaticButRoleArns.
      destruct (Z.eqb_spec (len (Static.RoleArns job)) 0) as [Hz|Hnz];
        by split_and!.
Qed.

Lemma Load_keeps_receiver_on_failure_witness :
  let c' :=
    receiver (Load fileFound (decodesTo twoJobs) zeroConf "config.yml") in
  returned (Load fileFound (decodesTo twoJobs) zeroConf "config.yml")
  = Some (Errorf "Static job [x/0]: Namespace should not be empty")
  ∧ (validate c').2
    = Some (Errorf "Static job [x/0]: Namespace should not be empty")
  ∧ (∃ job',
       elems (Discovery.Jobs (ScrapeConf.Discovery c')) !! 0%nat = Some job'
       ∧ sameJobButRoleArns scenarioB_job job'
       ∧ Job.RoleArns job' = slice_of [EmptyString])
  ∧ (∃ job',
       elems (Discovery.Jobs (ScrapeConf.Discovery c')) !! 1%nat = Some job'
       ∧ sameJobButRoleArns withRole_job job'
       ∧ Job.RoleArns job' = slice_of ["arn:aws:iam::1:role/r"%string])
  ∧ (∃ job',
       elems (ScrapeConf.Static c') !! 0%nat = Some job'
       ∧ sameStaticButRoleArns scenarioC_static job'
       ∧ Static.RoleArns job' = slice_of [EmptyString]).
Proof.
  intros c'. subst c'.
  destruct (Load_keeps_receiver_on_failure fileFound (decodesTo twoJobs)
              zeroConf "config.yml" [] twoJobs
              (Errorf "Static job [x/0]: Namespace should not be empty")
              eq_refl eq_refl eq_refl)
    as (_ & Herr & _ & _ & _ & _ & _ & _ & Hjobs & Hstatic).
  split; [reflexivity|]. split; [exact Herr|]. split_and!.
  - destruct (Hjobs 0%nat scenarioB_job eq_refl)
      as (job' & Hlookup & Hsame & Hempty & _).
    exists job'. split; [exact Hlookup|]. split; [exact Hsame|].
    apply Hempty. reflexivity.
  - destruct (Hjobs 1%nat withRole_job eq_refl)
      as (job' & Hlookup & Hsame & _ & Hkept).
    exists job'. split; [exact Hlookup|]. split; [exact Hsame|].
    apply Hkept. discriminate.
  - destruct (Hstatic 0%nat scenarioC_static eq_refl)
      as (job' & Hlookup & Hsame & Hempty & _).
    exists job'. split; [exact Hlookup|]. split; [exact Hsame|].
    apply Hempty. reflexivity.
Defined.

Lemma validateDiscoveryJob_type (j : Job.t) (jobIdx : nat) :
  Job.Type_ j ∉ supportedServices →
  (validateDiscoveryJob j jobIdx).2 = Some (Errorf (typeMessage j jobIdx)).
Proof.
  intros Hnot. unfold validateDiscoveryJob, typeMessage.
  rewrite !and_then_err.
  destruct (String.eqb (Job.Type_ j) EmptyString); cbn [negb]; [done|].
  destruct (stringInSlice (Job.Type_ j) supportedServices) eqn:Hin.
  - by apply stringInSlice_spec in Hin.
  - done.
Qed.

(** C3, as amended. A configuration that contains a discovery job whose
    type is not in [supportedServices] (byte-for-byte membership) never
    loads: [Load] returns an error made by [fmt.Errorf]. When every
    discovery job in front of it passes [validateDiscoveryJob], the error
    is the one about this job: for a non-empty type its message ends with
    the type and so contains it, for an empty type the message names the
    index of the job. *)
Theorem Load_unsupported_type ReadFile Unmarshal (c : ScrapeConf.t)
    (file : string) (yamlFile : list Byte.byte) (c1 : ScrapeConf.t)
    (i : nat) (j : Job.t) :
  ReadFile file = (yamlFile, None) →
  Unmarshal yamlFile c = (c1, None) →
  elems (Discovery.Jobs (ScrapeConf.Discovery c1)) !! i = Some j →
  Job.Type_ j ∉ supportedServices →
  (∃ msg, returned (Load ReadFile Unmarshal c file) = Some (Errorf msg))
  ∧ ((∀ k jk, (k < i)%nat →
        elems (Discovery.Jobs (ScrapeConf.Discovery c1)) !! k = Some jk →
        (validateDiscoveryJob jk k).2 = None) →
     ∃ msg,
       returned (Load ReadFile Unmarshal c file) = Some (Errorf msg)
       ∧ (Job.Type_ j ≠ EmptyString →
          msg = "Discovery job [" +:+ fmt_d (Z.of_nat i)
                  +:+ "]: Service is not in known list!: " +:+ Job.Type_ j
          ∧ contains msg (Job.Type_ j))
       ∧ (Job.Type_ j = EmptyString →
          msg = "Discovery job [" +:+ fmt_d (Z.of_nat i)
                  +:+ "]: Type should not be empty"
          ∧ contains msg (fmt_d (Z.of_nat i)))).
Proof.
  intros Hread Hdecode Hi Hnot.
  rewrite (Load_validate _ _ _ _ _ _ Hread Hdecode). simpl.
  pose proof (validateDiscoveryJob_type j i Hnot) as Hj. split.
  - apply is_Some_Errorf; [apply by_Errorf_validate|].
    apply (validate_discovery_fails c1 i j Hi). rewrite Hj. by eexists.
  - intros Hbefore. exists (typeMessage j i). split.
    + by apply (validate_discovery_first c1 i j).
    + unfold typeMessage. split.
      * intros Hne. rewrite (eqb_empty_false _ Hne). split; [done|].
        rewrite <- !string_app_assoc. apply contains_end.
      * intros ->. simpl. split; [done|].
        apply (contains_here "Discovery job [").
Qed.

Lemma Load_unsupported_type_witness :
  (∃ msg,
     returned (Load fileFound (decodesTo scenarioD) zeroConf "config.yml")
     = Some (Errorf msg))
  ∧ ∃ msg,
      returned (Load fileFound (decodesTo scenarioD) zeroConf "config.yml")
      = Some (Errorf msg)
      ∧ (msg = "Discovery job [0]: Service is not in known list!: notarealservice"%string)
      ∧ contains msg "notarealservice".
Proof.
  destruct (Load_unsupported_type fileFound (decodesTo scenarioD) zeroConf
              "config.yml" [] scenarioD 0%nat scenarioD_job
              eq_refl eq_refl eq_refl) as [Hfails Hfirst].
  - intros Hin. apply stringInSlice_spec in Hin. vm_compute in Hin.
    discriminate.
  - split; [exact Hfails|].
    destruct Hfirst as [msg [Hmsg [Hknown _]]].
    + intros k jk Hk. lia.
    + exists msg. split; [exact Hmsg|]. apply Hknown. discriminate.
Defined.

(** C3 as stated fails when a discovery job in front of the unsupported
    one breaks a rule of its own: the error is about that job and does not
    mention the unsupported type. *)
Lemma Load_unsupported_type_masked :
  elems (Discovery.Jobs (ScrapeConf.Discovery noRegionsThenUnknown)) !! 1%nat
  = Some scenarioD_job
  ∧ Job.Type_ scenarioD_job = "notarealservice"%string
  ∧ (Job.Type_ scenarioD_job ∉ supportedServices)
  ∧ returned
      (Load fileFound (decodesTo noRegionsThenUnknown) zeroConf "config.yml")
    = Some (Errorf "Discovery job [ec2/0]: Regions should not be empty")
  ∧ ¬ contains "Discovery job [ec2/0]: Regions should not be empty"
        (Job.Type_ scenarioD_job).
Proof.
  repeat split.
  - intros Hin. apply stringInSlice_spec in Hin. vm_compute in Hin.
    discriminate.
  - by apply not_contains.
Qed.

(** C4, as amended. For a metric of a discovery job, the period
    [validateMetric] tests is the metric's own when that is not zero and
    the job's when it is zero. For a metric that has a name and
    statistics, [validateMetric] returns an error exactly when that period
    is below 1, and the error then is the period message. *)
Theorem validateMetric_discovery_period (m : Metric.t) (metricIdx : nat)
    (parent : string) (j : Job.t) :
  Metric.Name m ≠ EmptyString →
  len (Metric.Statistics m) ≠ 0 →
  (Metric.Period m ≠ 0 → mPeriod m (Some j) = Metric.Period m)
  ∧ (Metric.Period m = 0 → mPeriod m (Some j) = Job.Period j)
  ∧ (is_Some (validateMetric m metricIdx parent (Some j)).2
     ↔ mPeriod m (Some j) < 1)
  ∧ (mPeriod m (Some j) < 1 →
     (validateMetric m metricIdx parent (Some j)).2
     = Some (Errorf (periodMessage m metricIdx parent))).
Proof.
  intros Hname Hstats. rewrite (validateMetric_named _ _ _ _ Hname Hstats).
  repeat split.
  - intros Hp. unfold mPeriod. by rewrite (proj2 (Z.eqb_neq _ _) Hp).
  - intros Hp. unfold mPeriod. by rewrite Hp.
  - destruct (Z.ltb_spec (mPeriod m (Some j)) 1) as [Hlt|Hge]; [done|].
    intros [e He].
    by destruct (mLength m (Some j) <? mPeriod m (Some j)).
  - intros Hlt. rewrite (proj2 (Z.ltb_lt _ _) Hlt). by eexists.
  - intros Hlt. by rewrite (proj2 (Z.ltb_lt _ _) Hlt).
Qed.

Lemma validateMetric_discovery_period_witness :
  mPeriod (cpuAverage 0 0) (Some scenarioB_job) = Job.Period scenarioB_job
  ∧ (validateMetric (cpuAverage 0 0) 0 "Discovery job [ec2/0]"
       (Some scenarioB_job)).2
    = Some (Errorf (periodMessage (cpuAverage 0 0) 0 "Discovery job [ec2/0]")).
Proof.
  destruct (validateMetric_discovery_period (cpuAverage 0 0) 0
              "Discovery job [ec2/0]" scenarioB_job)
    as [_ [Hzero [_ Herr]]].
  - discriminate.
  - discriminate.
  - split; [by apply Hzero | by apply Herr].
Defined.

(** C4 as stated fails on a metric without a name: its period is 300,
    not below 1, and [validateMetric] returns an error all the same. *)
Lemma validateMetric_unnamed_fails :
  mPeriod unnamed300 (Some scenarioB_job) = 300
  ∧ ¬ mPeriod unnamed300 (Some scenarioB_job) < 1
  ∧ (validateMetric unnamed300 0 "Discovery job [ec2/0]"
       (Some scenarioB_job)).2
    = Some (Errorf
              "Metric [/0] in Discovery job [ec2/0]: Name should not be empty").
Proof. repeat split. by vm_compute. Qed.

(** C5, as amended. A configuration with a static job that has a metric of
    period 0 never loads: [Load] returns an error made by [fmt.Errorf];
    the period is not inherited, [Static] has no period to inherit. The
    error is the period message of that metric when no rule in front of
    it is violated: every discovery job and every static job in front
    passes, the job has a name, a namespace and regions, every metric in
    front passes, and the metric has a name and statistics. *)
Theorem Load_static_period_zero ReadFile Unmarshal (c : ScrapeConf.t)
    (file : string) (yamlFile : list Byte.byte) (c1 : ScrapeConf.t)
    (i : nat) (sj : Static.t) (k : nat) (m : Metric.t) :
  ReadFile file = (yamlFile, None) →
  Unmarshal yamlFile c = (c1, None) →
  elems (ScrapeConf.Static c1) !! i = Some sj →
  elems (Static.Metrics sj) !! k = Some m →
  Metric.Period m = 0 →
  mPeriod m None = 0
  ∧ (∃ msg, returned (Load ReadFile Unmarshal c file) = Some (Errorf msg))
  ∧ ((∀ k' j', elems (Discovery.Jobs (ScrapeConf.Discovery c1)) !! k'
               = Some j' →
        (validateDiscoveryJob j' k').2 = None) →
     (∀ k' s', (k' < i)%nat → elems (ScrapeConf.Static c1) !! k' = Some s' →
        (validateStaticJob s' k').2 = None) →
     Static.Name sj ≠ EmptyString →
     Static.Namespace sj ≠ EmptyString →
     len (Static.Regions sj) ≠ 0 →
     (∀ k' m', (k' < k)%nat → elems (Static.Metrics sj) !! k' = Some m' →
        (validateMetric m' k' (staticParent sj i) None).2 = None) →
     Metric.Name m ≠ EmptyString →
     len (Metric.Statistics m) ≠ 0 →
     returned (Load ReadFile Unmarshal c file)
     = Some (Errorf (periodMessage m k (staticParent sj i)))).
Proof.
  intros Hread Hdecode Hi Hk Hzero.
  rewrite (Load_validate _ _ _ _ _ _ Hread Hdecode). simpl.
  assert (mPeriod m None = 0) as Hp by done.
  repeat split.
  - done.
  - apply is_Some_Errorf; [apply by_Errorf_validate|].
    apply (validate_static_fails c1 i sj Hi).
    apply (validateStaticJob_metric_fails sj i k m Hk).
    apply validateMetric_period_fails. lia.
  - intros Hjobs Hstatic Hname Hns Hregions Hmetrics Hmname Hstats.
    apply (validate_static_first c1 i sj); [done..|].
    apply (validateStaticJob_metric_first sj i k m); [done..|].
    rewrite (validateMetric_named _ _ _ _ Hmname Hstats). by rewrite Hp.
Qed.

Lemma Load_static_period_zero_witness :
  mPeriod (cpuAverage 0 60) None = 0
  ∧ (∃ msg,
       returned (Load fileFound (decodesTo period0_conf) zeroConf "config.yml")
       = Some (Errorf msg))
  ∧ returned (Load fileFound (decodesTo period0_conf) zeroConf "config.yml")
    = Some (Errorf
              (periodMessage (cpuAverage 0 60) 0
                 (staticParent period0_static 0))).
Proof.
  destruct (Load_static_period_zero fileFound (decodesTo period0_conf)
              zeroConf "config.yml" [] period0_conf 0%nat period0_static
              0%nat (cpuAverage 0 60) eq_refl eq_refl eq_refl eq_refl eq_refl)
    as [Hp [Hfails Hfirst]].
  split; [exact Hp|]. split; [exact Hfails|]. apply Hfirst.
  - intros k' j' Hk'. destruct k'; discriminate.
  - intros k' s' Hlt. lia.
  - discriminate.
  - discriminate.
  - discriminate.
  - intros k' m' Hlt. lia.
  - discriminate.
  - discriminate.
Defined.

(** C5 as stated fails when a rule in front of the period test is
    violated: a static metric of period 0 without a name gets the name
    error, not the period error. *)
Lemma Load_static_period_zero_masked :
  elems (ScrapeConf.Static unnamed0_conf) !! 0%nat = Some unnamed0_static
  ∧ elems (Static.Metrics unnamed0_static) !! 0%nat = Some unnamed0
  ∧ Metric.Period unnamed0 = 0
  ∧ returned (Load fileFound (decodesTo unnamed0_conf) zeroConf "config.yml")
    = Some (Errorf "Metric [/0] in Static job [x/0]: Name should not be empty")
  ∧ periodMessage unnamed0 0 (staticParent unnamed0_static 0)
    = "Metric [/0] in Static job [x/0]: Period value should be a positive integer"%string
  ∧ returned (Load fileFound (decodesTo unnamed0_conf) zeroConf "config.yml")
    ≠ Some (Errorf (periodMessage unnamed0 0 (staticParent unnamed0_static 0))).
Proof. repeat split. by vm_compute. Qed.

(** ** What a successful validation went through *)

Lemma and_then_ok_inv (r k : outcome) :
  (r >>> k).2 = None →
  r.2 = None ∧ k.2 = None ∧ (r >>> k).1 = r.1 ++ k.1.
Proof.
  rewrite and_then_err. destruct r as [w [e|]]; simpl; [discriminate|].
  by intros ->.
Qed.

Lemma validateMetric_ok_inv (m : Metric.t) (metricIdx : nat)
    (parent : string) (discovery : option Job.t) :
  (validateMetric m metricIdx parent discovery).2 = None →
  validateMetric m metricIdx parent discovery
  = if mLength m discovery <? mPeriod m discovery
    then Warningf (lengthWarning m metricIdx parent discovery) else ok.
Proof.
  unfold validateMetric.
  destruct (String.eqb (Metric.Name m) EmptyString); [discriminate|].
  destruct (len (Metric.Statistics m) =? 0); [discriminate|].
  destruct (mPeriod m discovery <? 1); [discriminate|].
  by destruct (mLength m discovery <? mPeriod m discovery).
Qed.

Lemma validateDiscoveryJob_ok_inv (j : Job.t) (i k : nat) (m : Metric.t) :
  (validateDiscoveryJob j i).2 = None →
  elems (Job.Metrics j) !! k = Some m →
  (validateMetric m k (discoveryParent j i) (Some j)).2 = None
  ∧ (validateMetric m k (discoveryParent j i) (Some j)).1
    ⊆ (validateDiscoveryJob j i).1.
Proof.
  unfold validateDiscoveryJob. intros Hok Hk.
  destruct (and_then_ok_inv _ _ Hok) as (_ & Hok1 & ->).
  destruct (and_then_ok_inv _ _ Hok1) as (_ & Hok2 & ->).
  destruct (and_then_ok_inv _ _ Hok2) as (_ & Hok3 & ->).
  destruct (and_then_ok_inv _ _ Hok3) as (Hrange & _ & ->).
  destruct (range_check_ok_inv _ 0 _ k m Hrange Hk) as [Hm Hsub].
  split; [done|]. intros w Hw. rewrite !elem_of_app. auto 10.
Qed.

Lemma validateStaticJob_ok_inv (sj : Static.t) (i k : nat) (m : Metric.t) :
  (validateStaticJob sj i).2 = None →
  elems (Static.Metrics sj) !! k = Some m →
  (validateMetric m k (staticParent sj i) None).2 = None
  ∧ (validateMetric m k (staticParent sj i) None).1
    ⊆ (validateStaticJob sj i).1.
Proof.
  unfold validateStaticJob. intros Hok Hk.
  destruct (and_then_ok_inv _ _ Hok) as (_ & Hok1 & ->).
  destruct (and_then_ok_inv _ _ Hok1) as (_ & Hok2 & ->).
  destruct (and_then_ok_inv _ _ Hok2) as (_ & Hok3 & ->).
  destruct (and_then_ok_inv _ _ Hok3) as (Hrange & _ & ->).
  destruct (range_check_ok_inv _ 0 _ k m Hrange Hk) as [Hm Hsub].
  split; [done|]. intros w Hw. rewrite !elem_of_app. auto 10.
Qed.

Lemma validate_ok_discovery (c : ScrapeConf.t) (i : nat) (j : Job.t) :
  (validate c).2 = None →
  elems (Discovery.Jobs (ScrapeConf.Discovery c)) !! i = Some j →
  (validateDiscoveryJob j i).2 = None
  ∧ (validateDiscoveryJob j i).1 ⊆ (validate c).1.
Proof.
  unfold validate. intros Hok Hi.
  destruct (and_then_ok_inv _ _ Hok) as (_ & Hok1 & ->).
  destruct (and_then_ok_inv _ _ Hok1) as (Hjobs & _ & ->).
  destruct (Discovery.Jobs (ScrapeConf.Discovery c)) as [|js]; [done|].
  simpl in *.
  destruct (range_check_ok_inv _ 0 _ i j Hjobs Hi) as [Hj Hsub].
  split; [done|]. intros w Hw. rewrite !elem_of_app. auto 10.
Qed.

Lemma validate_ok_static (c : ScrapeConf.t) (i : nat) (sj : Static.t) :
  (validate c).2 = None →
  elems (ScrapeConf.Static c) !! i = Some sj →
  (validateStaticJob sj i).2 = None
  ∧ (validateStaticJob sj i).1 ⊆ (validate c).1.
Proof.
  unfold validate. intros Hok Hi.
  destruct (and_then_ok_inv _ _ Hok) as (_ & Hok1 & ->).
  destruct (and_then_ok_inv _ _ Hok1) as (_ & Hok2 & ->).
  destruct (and_then_ok_inv _ _ Hok2) as (Hstatic & _ & ->).
  destruct (ScrapeConf.Static c) as [|ss]; [done|]. simpl in *.
  destruct (range_check_ok_inv _ 0 _ i sj Hstatic Hi) as [Hj Hsub].
  split; [done|]. intros w Hw. rewrite !elem_of_app. auto 10.
Qed.

(** C6. When the file is read and decoded and no rule of the
    specification is violated by the decoded tree, [Load] returns nil;
    and for every metric, of a discovery job or of a static job, whose
    effective length is below its effective period, [validateMetric]
    returns nil after logging the length warning, and that warning is in
    the log [Load] leaves. *)
Theorem Load_short_length_warns ReadFile Unmarshal (c : ScrapeConf.t)
    (file : string) (yamlFile : list Byte.byte) (c1 : ScrapeConf.t) :
  ReadFile file = (yamlFile, None) →
  Unmarshal yamlFile c = (c1, None) →
  allViolations c1 = [] →
  returned (Load ReadFile Unmarshal c file) = None
  ∧ (∀ i j k m,
       elems (Discovery.Jobs (ScrapeConf.Discovery c1)) !! i = Some j →
       elems (Job.Metrics j) !! k = Some m →
       mLength m (Some j) < mPeriod m (Some j) →
       validateMetric m k (discoveryParent j i) (Some j)
       = ([lengthWarning m k (discoveryParent j i) (Some j)], None)
       ∧ lengthWarning m k (discoveryParent j i) (Some j)
         ∈ logged (Load ReadFile Unmarshal c file))
  ∧ (∀ i sj k m,
       elems (ScrapeConf.Static c1) !! i = Some sj →
       elems (Static.Metrics sj) !! k = Some m →
       mLength m None < mPeriod m None →
       validateMetric m k (staticParent sj i) None
       = ([lengthWarning m k (staticParent sj i) None], None)
       ∧ lengthWarning m k (staticParent sj i) None
         ∈ logged (Load ReadFile Unmarshal c file)).
Proof.
  intros Hread Hdecode Hnone.
  rewrite (Load_validate _ _ _ _ _ _ Hread Hdecode).
  cbn [returned logged receiver].
  assert ((validate c1).2 = None) as Hok
    by (by rewrite validate_head, Hnone).
  split; [done|]. split.
  - intros i j k m Hi Hk Hlt.
    destruct (validate_ok_discovery c1 i j Hok Hi) as [Hj Hjsub].
    destruct (validateDiscoveryJob_ok_inv j i k m Hj Hk) as [Hm Hmsub].
    assert (validateMetric m k (discoveryParent j i) (Some j)
            = ([lengthWarning m k (discoveryParent j i) (Some j)], None))
      as Hwarn.
    { rewrite (validateMetric_ok_inv _ _ _ _ Hm).
      by rewrite (proj2 (Z.ltb_lt _ _) Hlt). }
    split; [done|]. apply Hjsub, Hmsub. rewrite Hwarn.
    by apply list_elem_of_singleton.
  - intros i sj k m Hi Hk Hlt.
    destruct (validate_ok_static c1 i sj Hok Hi) as [Hj Hjsub].
    destruct (validateStaticJob_ok_inv sj i k m Hj Hk) as [Hm Hmsub].
    assert (validateMetric m k (staticParent sj i) None
            = ([lengthWarning m k (staticParent sj i) None], None))
      as Hwarn.
    { rewrite (validateMetric_ok_inv _ _ _ _ Hm).
      by rewrite (proj2 (Z.ltb_lt _ _) Hlt). }
    split; [done|]. apply Hjsub, Hmsub. rewrite Hwarn.
    by apply list_elem_of_singleton.
Qed.

Lemma Load_short_length_warns_witness :
  returned (Load fileFound (decodesTo scenarioB) zeroConf "config.yml") = None
  ∧ validateMetric (cpuAverage 300 0) 0 (discoveryParent scenarioB_job 0)
      (Some scenarioB_job)
    = ([lengthWarning (cpuAverage 300 0) 0 (discoveryParent scenarioB_job 0)
          (Some scenarioB_job)], None)
  ∧ lengthWarning (cpuAverage 300 0) 0 (discoveryParent scenarioB_job 0)
      (Some scenarioB_job)
    ∈ logged (Load fileFound (decodesTo scenarioB) zeroConf "config.yml").
Proof.
  destruct (Load_short_length_warns fileFound (decodesTo scenarioB) zeroConf
              "config.yml" [] scenarioB eq_refl eq_refl eq_refl)
    as [Hnil [Hjobs _]].
  split; [exact Hnil|].
  apply (Hjobs 0%nat scenarioB_job 0%nat (cpuAverage 300 0) eq_refl eq_refl).
  reflexivity.
Defined.

(** Scenario B, evaluated: the load succeeds and logs one warning, for
    length 60 against period 300. *)
Example scenarioB_loads :
  Load fileFound (decodesTo scenarioB) zeroConf "config.yml"
  = mkLoadResult (defaulted scenarioB)
      ["Metric [CPUUtilization/0] in Discovery job [ec2/0]: length(60) is smaller than period(300). This can cause that the data requested is not ready and generate data gaps"%string]
      None.
Proof. reflexivity. Qed.

(** C7, as amended. For a static-job metric (no enclosing discovery job)
    with a name, statistics, a positive period and length zero, the
    effective length stays zero, nothing is inherited, and
    [validateMetric] does not fail: it logs the length warning and
    returns nil. The code has no positivity test on the length. *)
Theorem validateMetric_static_length_zero (m : Metric.t) (metricIdx : nat)
    (parent : string) :
  Metric.Name m ≠ EmptyString →
  len (Metric.Statistics m) ≠ 0 →
  0 < Metric.Period m →
  Metric.Length m = 0 →
  mLength m None = 0
  ∧ validateMetric m metricIdx parent None
    = ([lengthWarning m metricIdx parent None], None).
Proof.
  intros Hname Hstats Hperiod Hlength. split; [done|].
  rewrite (validateMetric_named _ _ _ _ Hname Hstats).
  unfold mPeriod, mLength. rewrite Hlength.
  destruct (Z.ltb_spec (Metric.Period m) 1) as [Hlt|_]; [lia|].
  by rewrite (proj2 (Z.ltb_lt _ _) Hperiod).
Qed.

Lemma validateMetric_static_length_zero_witness :
  mLength (cpuAverage 60 0) None = 0
  ∧ validateMetric (cpuAverage 60 0) 0 (staticParent length0_static 0) None
    = ([lengthWarning (cpuAverage 60 0) 0 (staticParent length0_static 0)
          None], None).
Proof.
  apply (validateMetric_static_length_zero (cpuAverage 60 0) 0
           (staticParent length0_static 0)).
  - discriminate.
  - discriminate.
  - reflexivity.
  - reflexivity.
Defined.

(** C7 as stated fails: a static job whose metric has period 60 and
    length 0 passes validation, and the load succeeds with one warning. *)
Lemma Load_static_length_zero_succeeds :
  elems (ScrapeConf.Static length0_conf) !! 0%nat = Some length0_static
  ∧ elems (Static.Metrics length0_static) !! 0%nat = Some (cpuAverage 60 0)
  ∧ Metric.Length (cpuAverage 60 0) = 0
  ∧ 0 < Metric.Period (cpuAverage 60 0)
  ∧ (validateMetric (cpuAverage 60 0) 0 (staticParent length0_static 0)
       None).2 = None
  ∧ (validateStaticJob length0_static 0).2 = None
  ∧ Load fileFound (decodesTo length0_conf) zeroConf "config.yml"
    = mkLoadResult (defaulted length0_conf)
        ["Metric [CPUUtilization/0] in Static job [x/0]: length(0) is smaller than period(60). This can cause that the data requested is not ready and generate data gaps"%string]
        None.
Proof. by repeat split. Qed.

(** C9, as amended. A configuration whose static job at index 0 has a
    name and an empty namespace never loads: [Load] returns an error made
    by [fmt.Errorf]. When every discovery job passes
    [validateDiscoveryJob], the message is
    ["Static job [<name>/0]: Namespace should not be empty"]: it contains
    the rule, the name of the job and the index 0. *)
Theorem Load_static_namespace_empty ReadFile Unmarshal (c : ScrapeConf.t)
    (file : string) (yamlFile : list Byte.byte) (c1 : ScrapeConf.t)
    (sj : Static.t) :
  ReadFile file = (yamlFile, None) →
  Unmarshal yamlFile c = (c1, None) →
  elems (ScrapeConf.Static c1) !! 0%nat = Some sj →
  Static.Name sj ≠ EmptyString →
  Static.Namespace sj = EmptyString →
  (∃ msg, returned (Load ReadFile Unmarshal c file) = Some (Errorf msg))
  ∧ ((∀ k j, elems (Discovery.Jobs (ScrapeConf.Discovery c1)) !! k = Some j →
        (validateDiscoveryJob j k).2 = None) →
     ∃ msg,
       returned (Load ReadFile Unmarshal c file) = Some (Errorf msg)
       ∧ msg = "Static job [" +:+ Static.Name sj
                 +:+ "/0]: Namespace should not be empty"
       ∧ contains msg "Namespace should not be empty"
       ∧ contains msg (Static.Name sj)
       ∧ contains msg (fmt_d 0)).
Proof.
  intros Hread Hdecode Hsj Hname Hns.
  rewrite (Load_validate _ _ _ _ _ _ Hread Hdecode).
  cbn [returned logged receiver].
  assert ((validateStaticJob sj 0).2
          = Some (Errorf ("Static job [" +:+ Static.Name sj
                            +:+ "/0]: Namespace should not be empty")))
    as Herr.
  { unfold validateStaticJob. rewrite !and_then_err, !when_err.
    rewrite (eqb_empty_false _ Hname), Hns. unfold staticParent.
    by rewrite !string_app_assoc. }
  split.
  - apply is_Some_Errorf; [apply by_Errorf_validate|].
    apply (validate_static_fails c1 0 sj Hsj). rewrite Herr. by eexists.
  - intros Hjobs. eexists. split.
    + apply (validate_static_first c1 0 sj); [done..| |exact Herr].
      intros k sk Hk. lia.
    + split; [done|]. repeat split.
      * apply contains_app_r, contains_app_r.
        by exists "/0]: "%string, EmptyString.
      * by exists "Static job ["%string,
          "/0]: Namespace should not be empty"%string.
      * apply contains_app_r, contains_app_r.
        by exists "/"%string, "]: Namespace should not be empty"%string.
Qed.

Lemma Load_static_namespace_empty_witness :
  (∃ msg,
     returned (Load fileFound (decodesTo scenarioC) zeroConf "config.yml")
     = Some (Errorf msg))
  ∧ ∃ msg,
      returned (Load fileFound (decodesTo scenarioC) zeroConf "config.yml")
      = Some (Errorf msg)
      ∧ msg = "Static job [" +:+ Static.Name scenarioC_static
                +:+ "/0]: Namespace should not be empty"
      ∧ contains msg "Namespace should not be empty"
      ∧ contains msg (Static.Name scenarioC_static)
      ∧ contains msg (fmt_d 0).
Proof.
  destruct (Load_static_namespace_empty fileFound (decodesTo scenarioC)
              zeroConf "config.yml" [] scenarioC scenarioC_static
              eq_refl eq_refl eq_refl) as [Hfails Hfirst].
  - discriminate.
  - reflexivity.
  - split; [exact Hfails|]. apply Hfirst.
    intros k j Hk. destruct k; discriminate.
Defined.

(** C9 as stated fails when a discovery job breaks a rule: discovery jobs
    are validated first, and the error is about that job, not about the
    namespace. *)
Lemma Load_static_namespace_masked :
  elems (ScrapeConf.Static noTypeThenScenarioC) !! 0%nat
  = Some scenarioC_static
  ∧ Static.Name scenarioC_static = "x"%string
  ∧ Static.Namespace scenarioC_static = EmptyString
  ∧ returned
      (Load fileFound (decodesTo noTypeThenScenarioC) zeroConf "config.yml")
    = Some (Errorf "Discovery job [0]: Type should not be empty")
  ∧ ¬ contains "Discovery job [0]: Type should not be empty"
        "Namespace should not be empty".
Proof. repeat split. by apply not_contains. Qed.

(** * Further properties of the code *)

(** ** More on sequencing and loops *)

Lemma and_then_log_inv (r k : outcome) (w : string) :
  w ∈ (r >>> k).1 → w ∈ r.1 ∨ w ∈ k.1.
Proof.
  destruct r as [ws [e|]]; simpl; [by left|]. by rewrite elem_of_app.
Qed.

Lemma range_check_ok_iff {A} (body : nat → A → outcome) (start : nat)
    (xs : list A) :
  (range_check body start xs).2 = None
  ↔ ∀ i x, xs !! i = Some x → (body (start + i)%nat x).2 = None.
Proof.
  split.
  - intros Hok i x Hi. by destruct (range_check_ok_inv body start xs i x).
  - apply range_check_all_ok.
Qed.

(** An error of the loop is the error of one iteration, and every
    iteration before it returned nil. *)
Lemma range_check_err_inv {A} (body : nat → A → outcome) (start : nat)
    (xs : list A) (e : error) :
  (range_check body start xs).2 = Some e →
  ∃ k x,
    xs !! k = Some x
    ∧ (body (start + k)%nat x).2 = Some e
    ∧ ∀ k' y, (k' < k)%nat → xs !! k' = Some y →
        (body (start + k')%nat y).2 = None.
Proof.
  revert start. induction xs as [|y xs IH]; intros start; [done|].
  simpl. rewrite and_then_err.
  destruct (body start y).2 as [e'|] eqn:Hy.
  - intros [= ->]. exists 0%nat, y. rewrite Nat.add_0_r.
    repeat split; [done|]. intros k' z Hk'. lia.
  - intros Hrest. destruct (IH (S start) Hrest) as (k & x & Hk & He & Hbefore).
    exists (S k), x. replace (start + S k)%nat with (S start + k)%nat by lia.
    repeat split; [done..|]. intros k' z Hlt Hz.
    destruct k' as [|k']; simpl in Hz.
    + injection Hz as <-. by rewrite Nat.add_0_r.
    + replace (start + S k')%nat with (S start + k')%nat by lia.
      apply Hbefore; [lia | done].
Qed.

(** A message in the log of the loop was logged by one iteration. *)
Lemma range_check_log_inv {A} (body : nat → A → outcome) (start : nat)
    (xs : list A) (w : string) :
  w ∈ (range_check body start xs).1 →
  ∃ k x, xs !! k = Some x ∧ w ∈ (body (start + k)%nat x).1.
Proof.
  revert start. induction xs as [|y xs IH]; intros start.
  - by intros ?%elem_of_nil.
  - simpl. intros [Hw|Hw]%and_then_log_inv.
    + exists 0%nat, y. by rewrite Nat.add_0_r.
    + destruct (IH (S start) Hw) as (k & x & Hk & Hx).
      exists (S k), x. by replace (start + S k)%nat with (S start + k)%nat
        by lia.
Qed.

(** The log of a loop that returns nil, iteration by iteration. *)
Lemma range_check_log_ok {A} (body : nat → A → outcome)
    (warnings : nat → A → list string) (start : nat) (xs : list A) :
  (∀ idx x, (body idx x).2 = None → (body idx x).1 = warnings idx x) →
  (range_check body start xs).2 = None →
  (range_check body start xs).1 = warnings_from warnings start xs.
Proof.
  intros Hbody. revert start. induction xs as [|y xs IH]; intros start;
    [done|].
  simpl. intros Hok. destruct (and_then_ok_inv _ _ Hok) as (Hy & Hrest & ->).
  by rewrite (Hbody _ _ Hy), (IH _ Hrest).
Qed.

Lemma errors_satisfy_range_check {A} (P : error → Prop)
    (body : nat → A → outcome) (start : nat) (xs : list A) :
  (∀ idx x, errors_satisfy P (body idx x)) →
  errors_satisfy P (range_check body start xs).
Proof.
  intros Hbody e He.
  destruct (range_check_err_inv body start xs e He) as (k & x & _ & Hx & _).
  by apply (Hbody _ _ e Hx).
Qed.

(** ** [validate] returns nil exactly on well-formed trees *)

Lemma validateMetric_ok_iff (m : Metric.t) (metricIdx : nat)
    (parent : string) (discovery : option Job.t) :
  (validateMetric m metricIdx parent discovery).2 = None
  ↔ metricOK discovery m.
Proof.
  unfold validateMetric, metricOK. rewrite !and_then_err, !when_err.
  destruct (String.eqb_spec (Metric.Name m) EmptyString) as [Hn|Hn].
  { split; [discriminate | by intros [? _]]. }
  destruct (Z.eqb_spec (len (Metric.Statistics m)) 0) as [Hs|Hs].
  { split; [discriminate | by intros (_ & ? & _)]. }
  destruct (Z.ltb_spec (mPeriod m discovery) 1) as [Hp|Hp].
  { split; [discriminate | intros (_ & _ & ?); lia]. }
  split; [done|]. intros _.
  by destruct (mLength m discovery <? mPeriod m discovery).
Qed.

Lemma validateDiscoveryJob_ok_iff (j : Job.t) (jobIdx : nat) :
  (validateDiscoveryJob j jobIdx).2 = None ↔ discoveryJobOK j.
Proof.
  unfold validateDiscoveryJob, discoveryJobOK.
  rewrite !and_then_err, !when_err.
  destruct (String.eqb_spec (Job.Type_ j) EmptyString) as [Ht|Ht];
    cbn [negb fst snd].
  { split; [discriminate | by intros [? _]]. }
  rewrite when_err.
  destruct (stringInSlice (Job.Type_ j) supportedServices) eqn:Hin;
    cbn [negb].
  2:{ split; [discriminate|]. intros (_ & Hmem & _).
      apply stringInSlice_spec in Hmem. congruence. }
  apply stringInSlice_spec in Hin.
  destruct (Z.eqb_spec (len (Job.Regions j)) 0) as [Hr|Hr].
  { split; [discriminate | by intros (_ & _ & ? & _)]. }
  destruct (Z.eqb_spec (len (Job.Metrics j)) 0) as [Hm|Hm].
  { split; [discriminate | by intros (_ & _ & _ & ? & _)]. }
  rewrite Forall_lookup.
  destruct (range_check _ 0 (elems (Job.Metrics j))).2 as [e|] eqn:Hrange.
  - split; [discriminate|]. intros (_ & _ & _ & _ & Hall).
    assert ((range_check
               (λ metricIdx metric,
                  validateMetric metric metricIdx (discoveryParent j jobIdx)
                    (Some j)) 0 (elems (Job.Metrics j))).2 = None) as Hnone.
    { apply range_check_all_ok. intros i x Hi.
      apply validateMetric_ok_iff. by apply (Hall i). }
    congruence.
  - split; [|done]. intros _.
    refine (conj Ht (conj Hin (conj Hr (conj Hm _)))). intros i x Hi.
    apply (range_check_ok_iff _ 0 (elems (Job.Metrics j))) with (i := i)
      (x := x) in Hrange; [|done].
    by apply validateMetric_ok_iff in Hrange.
Qed.

Lemma validateStaticJob_ok_iff (j : Static.t) (jobIdx : nat) :
  (validateStaticJob j jobIdx).2 = None ↔ staticJobOK j.
Proof.
  unfold validateStaticJob, staticJobOK.
  rewrite !and_then_err, !when_err.
  destruct (String.eqb_spec (Static.Name j) EmptyString) as [Hn|Hn].
  { split; [discriminate | by intros [? _]]. }
  destruct (String.eqb_spec (Static.Namespace j) EmptyString) as [Hs|Hs].
  { split; [discriminate | by intros (_ & ? & _)]. }
  destruct (Z.eqb_spec (len (Static.Regions j)) 0) as [Hr|Hr].
  { split; [discriminate | by intros (_ & _ & ? & _)]. }
  rewrite Forall_lookup.
  destruct (range_check _ 0 (elems (Static.Metrics j))).2 as [e|] eqn:Hrange.
  - split; [discriminate|]. intros (_ & _ & _ & Hall).
    assert ((range_check
               (λ metricIdx metric,
                  validateMetric metric metricIdx (staticParent j jobIdx)
                    None) 0 (elems (Static.Metrics j))).2 = None) as Hnone.
    { apply range_check_all_ok. intros i x Hi.
      apply validateMetric_ok_iff. by apply (Hall i). }
    congruence.
  - split; [|done]. intros _.
    refine (conj Hn (conj Hs (conj Hr _))). intros i x Hi.
    apply (range_check_ok_iff _ 0 (elems (Static.Metrics j))) with (i := i)
      (x := x) in Hrange; [|done].
    by apply validateMetric_ok_iff in Hrange.
Qed.

(** The error of [validate], test by test. *)
Lemma validate_err_unfold (c : ScrapeConf.t) :
  (validate c).2
  = if is_nil (Discovery.Jobs (ScrapeConf.Discovery c))
         && is_nil (ScrapeConf.Static c)
    then Some (Errorf rootMessage)
    else
      match
        (range_check (λ idx job, validateDiscoveryJob job idx) 0
           (elems (Discovery.Jobs (ScrapeConf.Discovery c)))).2
      with
      | Some e => Some e
      | None =>
          (range_check (λ idx job, validateStaticJob job idx) 0
             (elems (ScrapeConf.Static c))).2
      end.
Proof.
  unfold validate. rewrite !and_then_err.
  destruct (Discovery.Jobs (ScrapeConf.Discovery c)) as [|js];
    destruct (ScrapeConf.Static c) as [|ss]; simpl.
  - done.
  - by destruct (range_check _ 0 ss).2.
  - by destruct (range_check _ 0 js).2.
  - destruct (range_check _ 0 js).2; [done|].
    by destruct (range_check _ 0 ss).2.
Qed.

Lemma validate_ok_iff (c : ScrapeConf.t) :
  (validate c).2 = None ↔ wellFormed c.
Proof.
  rewrite validate_err_unfold. unfold wellFormed.
  destruct (is_nil _ && is_nil _).
  { split; [discriminate | by intros [? _]]. }
  rewrite !Forall_lookup.
  destruct (range_check _ 0 (elems (Discovery.Jobs _))).2 as [e|] eqn:Hjobs.
  - split; [discriminate|]. intros (_ & Hall & _).
    assert ((range_check (λ idx job, validateDiscoveryJob job idx) 0
               (elems (Discovery.Jobs (ScrapeConf.Discovery c)))).2 = None)
      as Hnone.
    { apply range_check_all_ok. intros i x Hi.
      apply validateDiscoveryJob_ok_iff. by apply (Hall i). }
    congruence.
  - rewrite range_check_ok_iff. split.
    + intros Hstatic. split; [done|]. split.
      * intros i x Hi.
        apply (range_check_ok_iff _ 0 _) with (i := i) (x := x) in Hjobs;
          [|done].
        by apply validateDiscoveryJob_ok_iff in Hjobs.
      * intros i x Hi. by apply (validateStaticJob_ok_iff x (0 + i)), Hstatic.
    + intros (_ & _ & Hall) i x Hi.
      apply validateStaticJob_ok_iff. by apply (Hall i).
Qed.

(** X1. [Load] returns nil exactly when the file is read, the document
    decodes, and the decoded tree is well formed: one of the two job
    slices is not nil; every discovery job has a supported, non-empty type,
    regions, metrics; every static job has a name, a namespace and
    regions; every metric has a name, statistics and an effective period of
    at least 1. *)
Theorem Load_returns_nil_iff ReadFile Unmarshal (c : ScrapeConf.t)
    (file : string) :
  returned (Load ReadFile Unmarshal c file) = None
  ↔ ∃ yamlFile c1,
      ReadFile file = (yamlFile, None)
      ∧ Unmarshal yamlFile c = (c1, None)
      ∧ wellFormed c1.
Proof.
  destruct (ReadFile file) as [yamlFile [cause|]] eqn:Hread.
  { unfold Load. rewrite Hread. split; [discriminate|].
    by intros (y & c1 & [=] & _). }
  destruct (Unmarshal yamlFile c) as [c1 [cause|]] eqn:Hdecode.
  { unfold Load. rewrite Hread, Hdecode. split; [discriminate|].
    intros (y & c1' & [= <-] & Hd & _). rewrite Hdecode in Hd.
    discriminate. }
  rewrite (Load_validate _ _ _ _ _ _ Hread Hdecode). cbn [returned].
  rewrite validate_ok_iff. split.
  - intros Hwf. by exists yamlFile, c1.
  - intros (y & c1' & [= <-] & Hd & Hwf). rewrite Hdecode in Hd.
    by injection Hd as <-.
Qed.

(** X2. The two kinds of job differ on an empty list of metrics: a static
    job with a name, a namespace and regions passes [validateStaticJob]
    without metrics, silently, while a discovery job with a supported type
    and regions fails [validateDiscoveryJob] without metrics. *)
Theorem jobs_without_metrics (sj : Static.t) (j : Job.t) (jobIdx : nat) :
  Static.Name sj ≠ EmptyString →
  Static.Namespace sj ≠ EmptyString →
  len (Static.Regions sj) ≠ 0 →
  len (Static.Metrics sj) = 0 →
  Job.Type_ j ∈ supportedServices →
  len (Job.Regions j) ≠ 0 →
  len (Job.Metrics j) = 0 →
  validateStaticJob sj jobIdx = ([], None)
  ∧ validateDiscoveryJob j jobIdx
    = ([], Some (Errorf (discoveryParent j jobIdx
                           +:+ ": Metrics should not be empty"))).
Proof.
  intros Hname Hns Hregions Hmetrics Htype Hjregions Hjmetrics. split.
  - unfold validateStaticJob.
    rewrite (eqb_empty_false _ Hname), (eqb_empty_false _ Hns).
    rewrite (proj2 (Z.eqb_neq _ _) Hregions).
    assert (elems (Static.Metrics sj) = []) as ->; [|done].
    unfold len in Hmetrics. destruct (elems (Static.Metrics sj)); [done|].
    simpl in Hmetrics. lia.
  - unfold validateDiscoveryJob.
    assert (Job.Type_ j ≠ EmptyString) as Hne.
    { intros Hempty. rewrite Hempty in Htype.
      apply stringInSlice_spec in Htype. discriminate. }
    rewrite (eqb_empty_false _ Hne). cbn [negb].
    rewrite (proj2 (stringInSlice_spec _ _) Htype).
    rewrite (proj2 (Z.eqb_neq _ _) Hjregions), Hjmetrics. done.
Qed.

Lemma jobs_without_metrics_witness :
  validateStaticJob noMetrics_static 0 = ([], None)
  ∧ validateDiscoveryJob noMetrics_job 0
    = ([], Some (Errorf (discoveryParent noMetrics_job 0
                           +:+ ": Metrics should not be empty"))).
Proof.
  apply (jobs_without_metrics noMetrics_static noMetrics_job 0).
  - discriminate.
  - discriminate.
  - discriminate.
  - reflexivity.
  - apply stringInSlice_spec. reflexivity.
  - discriminate.
  - reflexivity.
Defined.

(** X3. After a successful read and decode, every discovery job and every
    static job of the receiver has at least one entry in RoleArns,
    whether [Load] then returns an error or not. *)
Theorem Load_RoleArns_never_empty ReadFile Unmarshal (c : ScrapeConf.t)
    (file : string) (yamlFile : list Byte.byte) (c1 : ScrapeConf.t) :
  ReadFile file = (yamlFile, None) →
  Unmarshal yamlFile c = (c1, None) →
  let c' := receiver (Load ReadFile Unmarshal c file) in
  (∀ i job,
     elems (Discovery.Jobs (ScrapeConf.Discovery c')) !! i = Some job →
     1 ≤ len (Job.RoleArns job))
  ∧ (∀ i job,
       elems (ScrapeConf.Static c') !! i = Some job →
       1 ≤ len (Static.RoleArns job)).
Proof.
  intros Hread Hdecode c'. subst c'.
  rewrite (Load_validate _ _ _ _ _ _ Hread Hdecode). cbn [receiver].
  destruct c1 as [[etm jobs] static]. unfold defaulted. simpl. split.
  - intros i job. destruct jobs as [|js]; [done|]. simpl.
    rewrite list_lookup_fmap. destruct (js !! i) as [j|]; [|done].
    intros [= <-]. unfold defaultedJob.
    destruct (Z.eqb_spec (len (Job.RoleArns j)) 0) as [Hz|Hnz]; [done|].
    unfold len in *. lia.
  - intros i job. destruct static as [|ss]; [done|]. simpl.
    rewrite list_lookup_fmap. destruct (ss !! i) as [j|]; [|done].
    intros [= <-]. unfold defaultedStatic.
    destruct (Z.eqb_spec (len (Static.RoleArns j)) 0) as [Hz|Hnz]; [done|].
    unfold len in *. lia.
Qed.

Lemma Load_RoleArns_never_empty_witness :
  1 ≤ len (Job.RoleArns (defaultedJob scenarioB_job))
  ∧ 1 ≤ len (Static.RoleArns (defaultedStatic scenarioC_static)).
Proof.
  destruct (Load_RoleArns_never_empty fileFound (decodesTo twoJobs) zeroConf
              "config.yml" [] twoJobs eq_refl eq_refl) as [Hjobs Hstatic].
  split.
  - exact (Hjobs 0%nat (defaultedJob scenarioB_job) eq_refl).
  - exact (Hstatic 0%nat (defaultedStatic scenarioC_static) eq_refl).
Defined.

(** X4. The defaulting loops of [Load] are idempotent: run on their own
    result they change nothing, on the discovery jobs and on the static
    jobs. *)
Theorem defaultRoleArns_idempotent (jobs : slice Job.t)
    (static : slice Static.t) :
  defaultRoleArns Job.RoleArns Job.set_RoleArns
    (defaultRoleArns Job.RoleArns Job.set_RoleArns jobs)
  = defaultRoleArns Job.RoleArns Job.set_RoleArns jobs
  ∧ defaultRoleArns Static.RoleArns Static.set_RoleArns
      (defaultRoleArns Static.RoleArns Static.set_RoleArns static)
    = defaultRoleArns Static.RoleArns Static.set_RoleArns static.
Proof.
  rewrite !defaultRoleArns_jobs, !defaultRoleArns_static. split.
  - destruct jobs as [|js]; [done|]. simpl. f_equal.
    rewrite <- list_fmap_compose. apply list_fmap_ext. intros i j _. simpl.
    unfold defaultedJob.
    destruct (Z.eqb_spec (len (Job.RoleArns j)) 0) as [Hz|Hnz]; [done|].
    by rewrite (proj2 (Z.eqb_neq _ _) Hnz).
  - destruct static as [|ss]; [done|]. simpl. f_equal.
    rewrite <- list_fmap_compose. apply list_fmap_ext. intros i j _. simpl.
    unfold defaultedStatic.
    destruct (Z.eqb_spec (len (Static.RoleArns j)) 0) as [Hz|Hnz]; [done|].
    by rewrite (proj2 (Z.eqb_neq _ _) Hnz).
Qed.

(** X5. Defaulting and validation do not interfere: after a successful
    read and decode, what [Load] logs and returns is what [validate] logs
    and returns on the tree as decoded, before any RoleArns is
    defaulted. *)
Theorem Load_validates_as_decoded ReadFile Unmarshal (c : ScrapeConf.t)
    (file : string) (yamlFile : list Byte.byte) (c1 : ScrapeConf.t) :
  ReadFile file = (yamlFile, None) →
  Unmarshal yamlFile c = (c1, None) →
  logged (Load ReadFile Unmarshal c file) = (validate c1).1
  ∧ returned (Load ReadFile Unmarshal c file) = (validate c1).2
  ∧ validate (receiver (Load ReadFile Unmarshal c file)) = validate c1.
Proof.
  intros Hread Hdecode. rewrite (Load_validate _ _ _ _ _ _ Hread Hdecode).
  cbn [logged returned receiver]. by rewrite validate_defaulted.
Qed.

Lemma Load_validates_as_decoded_witness :
  logged (Load fileFound (decodesTo twoJobs) zeroConf "config.yml")
  = (validate twoJobs).1
  ∧ returned (Load fileFound (decodesTo twoJobs) zeroConf "config.yml")
    = (validate twoJobs).2
  ∧ validate
      (receiver (Load fileFound (decodesTo twoJobs) zeroConf "config.yml"))
    = validate twoJobs.
Proof.
  apply (Load_validates_as_decoded fileFound (decodesTo twoJobs) zeroConf
           "config.yml" [] twoJobs); reflexivity.
Defined.

(** ** What an error of [validate] says and where it comes from *)

Lemma errors_satisfy_ok (P : error → Prop) : errors_satisfy P ok.
Proof. by intros e. Qed.

Lemma errors_satisfy_fail (P : error → Prop) (msg : string) :
  P (Errorf msg) → errors_satisfy P (fail msg).
Proof. by intros HP e [= <-]. Qed.

Lemma errors_satisfy_when (P : error → Prop) (b : bool) (r : outcome) :
  errors_satisfy P r → errors_satisfy P (when b r).
Proof. destruct b; [done | intros _; apply errors_satisfy_ok]. Qed.

Lemma errors_satisfy_and_then (P : error → Prop) (r k : outcome) :
  errors_satisfy P r → errors_satisfy P k → errors_satisfy P (r >>> k).
Proof.
  intros Hr Hk e. rewrite and_then_err.
  destruct r.2 as [e'|] eqn:He'; [intros [= <-]; by apply Hr | apply Hk].
Qed.

Lemma errors_satisfy_Warningf (P : error → Prop) (msg : string) :
  errors_satisfy P (Warningf msg).
Proof. by intros e. Qed.

Lemma mentions_prefix (label post : string) :
  mentions label (Errorf (label +:+ post)).
Proof. eexists. split; [done|]. by exists EmptyString, post. Qed.

Lemma mentions_inside (pre label post msg : string) :
  msg = pre +:+ label +:+ post → mentions label (Errorf msg).
Proof. intros ->. eexists. split; [done|]. by exists pre, post. Qed.

(** One step through the structure of a validation function. *)
Ltac errors_step :=
  lazymatch goal with
  | |- errors_satisfy _ (_ >>> _) => apply errors_satisfy_and_then
  | |- errors_satisfy _ (when _ _) => apply errors_satisfy_when
  | |- errors_satisfy _ ok => apply errors_satisfy_ok
  | |- errors_satisfy _ (Warningf _) => apply errors_satisfy_Warningf
  | |- errors_satisfy _ (fail _) => apply errors_satisfy_fail
  | |- errors_satisfy _ (range_check _ _ _) =>
      apply errors_satisfy_range_check; intros
  | |- errors_satisfy _ (if _ then _ else _) =>
      match goal with |- context [if ?b then _ else _] => destruct b end
  end.

(** Every error of [validateMetric] carries the label of the job it was
    given. *)
Lemma validateMetric_mentions_parent (m : Metric.t) (metricIdx : nat)
    (parent : string) (discovery : option Job.t) :
  errors_satisfy (mentions parent)
    (validateMetric m metricIdx parent discovery).
Proof.
  unfold validateMetric, periodMessage, metricPrefix.
  repeat errors_step;
    (eapply (mentions_inside
               ("Metric [" +:+ Metric.Name m +:+ "/"
                  +:+ fmt_d (Z.of_nat metricIdx) +:+ "] in "));
     by rewrite !string_app_assoc).
Qed.

Lemma validateDiscoveryJob_names_job (j : Job.t) (jobIdx : nat) :
  errors_satisfy (namesDiscoveryJob j jobIdx) (validateDiscoveryJob j jobIdx).
Proof.
  unfold validateDiscoveryJob, namesDiscoveryJob. repeat errors_step.
  - left. eapply (mentions_inside EmptyString).
    by rewrite !string_app_assoc.
  - left. eapply (mentions_inside EmptyString).
    by rewrite !string_app_assoc.
  - right. apply mentions_prefix.
  - right. apply mentions_prefix.
  - intros e He. right.
    exact (validateMetric_mentions_parent _ _ _ _ e He).
Qed.

Lemma validateStaticJob_names_job (j : Static.t) (jobIdx : nat) :
  errors_satisfy (namesStaticJob j jobIdx) (validateStaticJob j jobIdx).
Proof.
  unfold validateStaticJob, namesStaticJob. repeat errors_step.
  - left. eapply (mentions_inside EmptyString).
    by rewrite !string_app_assoc.
  - right. apply mentions_prefix.
  - right. apply mentions_prefix.
  - intros e He. right.
    exact (validateMetric_mentions_parent _ _ _ _ e He).
Qed.

(** No error of a job is the root error. *)
Lemma validateMetric_not_root (m : Metric.t) (metricIdx : nat)
    (parent : string) (discovery : option Job.t) :
  errors_satisfy (λ e, e ≠ Errorf rootMessage)
    (validateMetric m metricIdx parent discovery).
Proof.
  unfold validateMetric, periodMessage, metricPrefix.
  repeat errors_step; discriminate.
Qed.

Lemma validateDiscoveryJob_not_root (j : Job.t) (jobIdx : nat) :
  errors_satisfy (λ e, e ≠ Errorf rootMessage) (validateDiscoveryJob j jobIdx).
Proof.
  unfold validateDiscoveryJob, discoveryParent. repeat errors_step;
    try discriminate.
  apply validateMetric_not_root.
Qed.

Lemma validateStaticJob_not_root (j : Static.t) (jobIdx : nat) :
  errors_satisfy (λ e, e ≠ Errorf rootMessage) (validateStaticJob j jobIdx).
Proof.
  unfold validateStaticJob, staticParent. repeat errors_step;
    try discriminate.
  apply validateMetric_not_root.
Qed.

(** X6. [validate] returns the root error exactly when both job slices
    are nil: no job, however wrong, produces that message, and no tree
    with a non-nil slice is refused with it. On two nil slices nothing is
    logged. *)
Theorem validate_root_error_iff (c : ScrapeConf.t) :
  ((validate c).2 = Some (Errorf rootMessage)
   ↔ is_nil (Discovery.Jobs (ScrapeConf.Discovery c))
       && is_nil (ScrapeConf.Static c) = true)
  ∧ (is_nil (Discovery.Jobs (ScrapeConf.Discovery c))
       && is_nil (ScrapeConf.Static c) = true →
     (validate c).1 = []).
Proof.
  split.
  - rewrite validate_err_unfold.
    destruct (is_nil _ && is_nil _); [done|]. split; [|discriminate].
    destruct (range_check _ 0 (elems (Discovery.Jobs _))).2 as [e|] eqn:Hjobs.
    + intros [= ->].
      by pose proof
        (errors_satisfy_range_check (λ e, e ≠ Errorf rootMessage) _ 0 _
           (λ idx x, validateDiscoveryJob_not_root x idx) _ Hjobs).
    + intros Hstatic.
      by pose proof
        (errors_satisfy_range_check (λ e, e ≠ Errorf rootMessage) _ 0 _
           (λ idx x, validateStaticJob_not_root x idx) _ Hstatic).
  - unfold validate. by intros ->.
Qed.

(** X11. Every error [validate] returns can be traced: it is the root
    error on two nil slices; or the error of one discovery job, all
    discovery jobs in front of it having passed, with a message that
    carries the label of that job; or, all discovery jobs having passed,
    the error of one static job, all static jobs in front of it having
    passed, with a message that carries the label of that job. *)
Theorem validate_error_origin (c : ScrapeConf.t) (e : error) :
  (validate c).2 = Some e →
  (e = Errorf rootMessage
   ∧ is_nil (Discovery.Jobs (ScrapeConf.Discovery c))
       && is_nil (ScrapeConf.Static c) = true)
  ∨ (∃ i j,
       elems (Discovery.Jobs (ScrapeConf.Discovery c)) !! i = Some j
       ∧ (validateDiscoveryJob j i).2 = Some e
       ∧ namesDiscoveryJob j i e
       ∧ ∀ k jk, (k < i)%nat →
           elems (Discovery.Jobs (ScrapeConf.Discovery c)) !! k = Some jk →
           (validateDiscoveryJob jk k).2 = None)
  ∨ (∃ i sj,
       elems (ScrapeConf.Static c) !! i = Some sj
       ∧ (validateStaticJob sj i).2 = Some e
       ∧ namesStaticJob sj i e
       ∧ (∀ k sk, (k < i)%nat → elems (ScrapeConf.Static c) !! k = Some sk →
            (validateStaticJob sk k).2 = None)
       ∧ ∀ k jk,
           elems (Discovery.Jobs (ScrapeConf.Discovery c)) !! k = Some jk →
           (validateDiscoveryJob jk k).2 = None).
Proof.
  rewrite validate_err_unfold.
  destruct (is_nil _ && is_nil _); [intros [= <-]; by left|].
  destruct (range_check _ 0 (elems (Discovery.Jobs _))).2 as [e'|] eqn:Hjobs.
  - intros [= ->]. right. left.
    destruct (range_check_err_inv _ _ _ _ Hjobs) as (i & j & Hi & He & Hbefore).
    exists i, j. repeat split; [done..| |done].
    by apply (validateDiscoveryJob_names_job j i).
  - intros Hstatic. right. right.
    destruct (range_check_err_inv _ _ _ _ Hstatic)
      as (i & sj & Hi & He & Hbefore).
    exists i, sj. repeat split; [done..| |done|].
    + by apply (validateStaticJob_names_job sj i).
    + intros k jk Hk.
      by apply (range_check_ok_iff _ 0 _) with (i := k) (x := jk) in Hjobs.
Qed.

Lemma validate_error_origin_witness :
  ∃ i j,
    elems (Discovery.Jobs (ScrapeConf.Discovery noRegionsThenUnknown)) !! i
    = Some j
    ∧ (validateDiscoveryJob j i).2
      = Some (Errorf "Discovery job [ec2/0]: Regions should not be empty")
    ∧ namesDiscoveryJob j i
        (Errorf "Discovery job [ec2/0]: Regions should not be empty").
Proof.
  destruct (validate_error_origin noRegionsThenUnknown
              (Errorf "Discovery job [ec2/0]: Regions should not be empty")
              eq_refl) as [[Hroot _]|[Hjob|Hstatic]].
  - discriminate Hroot.
  - destruct Hjob as (i & j & Hi & He & Hnames & _). by exists i, j.
  - destruct Hstatic as (i & sj & Hi & _). destruct i; discriminate Hi.
Defined.

Lemma validate_root_error_iff_witness :
  (validate zeroConf).2 = Some (Errorf rootMessage)
  ∧ (validate zeroConf).1 = [].
Proof.
  destruct (validate_root_error_iff zeroConf) as [Hiff Hlog].
  split; [apply Hiff; reflexivity | apply Hlog; reflexivity].
Defined.

Lemma Load_returns_nil_iff_witness :
  returned (Load fileFound (decodesTo noMetrics_conf) zeroConf "config.yml")
  = None.
Proof.
  apply (Load_returns_nil_iff fileFound (decodesTo noMetrics_conf) zeroConf
           "config.yml").
  exists [], noMetrics_conf. split; [reflexivity|]. split; [reflexivity|].
  split; [reflexivity|]. split; [constructor|].
  repeat constructor; discriminate.
Defined.

(** ** What is logged *)

Lemma when_fail_log (b : bool) (msg : string) : (when b (fail msg)).1 = [].
Proof. by destruct b. Qed.

(** A message logged by [validateMetric] is the length warning of a metric
    that passes, whose effective length is below its effective period. *)
Lemma validateMetric_log_inv (m : Metric.t) (metricIdx : nat)
    (parent : string) (discovery : option Job.t) (w : string) :
  w ∈ (validateMetric m metricIdx parent discovery).1 →
  metricOK discovery m
  ∧ mLength m discovery < mPeriod m discovery
  ∧ w = lengthWarning m metricIdx parent discovery.
Proof.
  unfold validateMetric, metricOK.
  destruct (String.eqb_spec (Metric.Name m) EmptyString) as [Hn|Hn];
    [by intros ?%elem_of_nil|].
  destruct (Z.eqb_spec (len (Metric.Statistics m)) 0) as [Hs|Hs];
    [by intros ?%elem_of_nil|].
  destruct (Z.ltb_spec (mPeriod m discovery) 1) as [Hp|Hp];
    [by intros ?%elem_of_nil|].
  destruct (Z.ltb_spec (mLength m discovery) (mPeriod m discovery))
    as [Hl|Hl]; [|by intros ?%elem_of_nil].
  simpl. by intros ->%list_elem_of_singleton.
Qed.

Lemma validateDiscoveryJob_log_inv (j : Job.t) (jobIdx : nat) (w : string) :
  w ∈ (validateDiscoveryJob j jobIdx).1 →
  ∃ k m,
    elems (Job.Metrics j) !! k = Some m
    ∧ w ∈ (validateMetric m k (discoveryParent j jobIdx) (Some j)).1.
Proof.
  unfold validateDiscoveryJob.
  intros [Hw|Hw]%and_then_log_inv.
  { destruct (negb (String.eqb _ _)); [|by apply elem_of_nil in Hw].
    rewrite when_fail_log in Hw. by apply elem_of_nil in Hw. }
  apply and_then_log_inv in Hw as [Hw|Hw].
  { rewrite when_fail_log in Hw. by apply elem_of_nil in Hw. }
  apply and_then_log_inv in Hw as [Hw|Hw].
  { rewrite when_fail_log in Hw. by apply elem_of_nil in Hw. }
  apply and_then_log_inv in Hw as [Hw|Hw]; [|by apply elem_of_nil in Hw].
  destruct (range_check_log_inv _ _ _ _ Hw) as (k & m & Hk & Hm).
  by exists k, m.
Qed.

Lemma validateStaticJob_log_inv (j : Static.t) (jobIdx : nat) (w : string) :
  w ∈ (validateStaticJob j jobIdx).1 →
  ∃ k m,
    elems (Static.Metrics j) !! k = Some m
    ∧ w ∈ (validateMetric m k (staticParent j jobIdx) None).1.
Proof.
  unfold validateStaticJob.
  intros [Hw|Hw]%and_then_log_inv.
  { rewrite when_fail_log in Hw. by apply elem_of_nil in Hw. }
  apply and_then_log_inv in Hw as [Hw|Hw].
  { rewrite when_fail_log in Hw. by apply elem_of_nil in Hw. }
  apply and_then_log_inv in Hw as [Hw|Hw].
  { rewrite when_fail_log in Hw. by apply elem_of_nil in Hw. }
  apply and_then_log_inv in Hw as [Hw|Hw]; [|by apply elem_of_nil in Hw].
  destruct (range_check_log_inv _ _ _ _ Hw) as (k & m & Hk & Hm).
  by exists k, m.
Qed.

(** X7. Whatever [validate] returns, every message it logs is the length
    warning of a metric of one of the jobs, and that metric passed: it has
    a name, statistics, an effective period of at least 1, and an effective
    length below that period. Nothing else is ever logged, and a metric
    that is refused is never warned about. *)
Theorem validate_logs_only_length_warnings (c : ScrapeConf.t) (w : string) :
  w ∈ (validate c).1 →
  (∃ i j k m,
     elems (Discovery.Jobs (ScrapeConf.Discovery c)) !! i = Some j
     ∧ elems (Job.Metrics j) !! k = Some m
     ∧ metricOK (Some j) m
     ∧ mLength m (Some j) < mPeriod m (Some j)
     ∧ w = lengthWarning m k (discoveryParent j i) (Some j))
  ∨ (∃ i sj k m,
       elems (ScrapeConf.Static c) !! i = Some sj
       ∧ elems (Static.Metrics sj) !! k = Some m
       ∧ metricOK None m
       ∧ mLength m None < mPeriod m None
       ∧ w = lengthWarning m k (staticParent sj i) None).
Proof.
  unfold validate. intros [Hw|Hw]%and_then_log_inv.
  { rewrite when_fail_log in Hw. by apply elem_of_nil in Hw. }
  apply and_then_log_inv in Hw as [Hw|Hw].
  - left. destruct (Discovery.Jobs (ScrapeConf.Discovery c)) as [|js];
      [by apply elem_of_nil in Hw|]. simpl in *.
    destruct (range_check_log_inv _ _ _ _ Hw) as (i & j & Hi & Hj).
    destruct (validateDiscoveryJob_log_inv _ _ _ Hj) as (k & m & Hk & Hm).
    destruct (validateMetric_log_inv _ _ _ _ _ Hm) as (Hok & Hlt & ->).
    by exists i, j, k, m.
  - apply and_then_log_inv in Hw as [Hw|Hw]; [|by apply elem_of_nil in Hw].
    right. destruct (ScrapeConf.Static c) as [|ss];
      [by apply elem_of_nil in Hw|]. simpl in *.
    destruct (range_check_log_inv _ _ _ _ Hw) as (i & j & Hi & Hj).
    destruct (validateStaticJob_log_inv _ _ _ Hj) as (k & m & Hk & Hm).
    destruct (validateMetric_log_inv _ _ _ _ _ Hm) as (Hok & Hlt & ->).
    by exists i, j, k, m.
Qed.

Lemma validate_logs_only_length_warnings_witness :
  ∃ i j k m,
    elems (Discovery.Jobs (ScrapeConf.Discovery twoJobs)) !! i = Some j
    ∧ elems (Job.Metrics j) !! k = Some m
    ∧ metricOK (Some j) m
    ∧ mLength m (Some j) < mPeriod m (Some j)
    ∧ lengthWarning (cpuAverage 300 0) 0 (discoveryParent withRole_job 1)
        (Some withRole_job)
      = lengthWarning m k (discoveryParent j i) (Some j).
Proof.
  destruct (validate_logs_only_length_warnings twoJobs
              (lengthWarning (cpuAverage 300 0) 0
                 (discoveryParent withRole_job 1) (Some withRole_job)))
    as [Hjob|Hstatic].
  - apply list_elem_of_In. right. left. reflexivity.
  - exact Hjob.
  - destruct Hstatic as (i & sj & k & m & Hi & Hk & _ & Hlt & _).
    destruct i as [|i]; [|destruct i; discriminate Hi].
    injection Hi as <-.
    destruct k as [|k]; [|destruct k; discriminate Hk].
    injection Hk as <-. discriminate Hlt.
Defined.

Lemma validateMetric_log_ok (m : Metric.t) (metricIdx : nat)
    (parent : string) (discovery : option Job.t) :
  (validateMetric m metricIdx parent discovery).2 = None →
  (validateMetric m metricIdx parent discovery).1
  = metricWarnings discovery parent metricIdx m.
Proof.
  intros Hok. rewrite (validateMetric_ok_inv _ _ _ _ Hok).
  unfold metricWarnings.
  by destruct (mLength m discovery <? mPeriod m discovery).
Qed.

Lemma validateDiscoveryJob_log_ok (j : Job.t) (jobIdx : nat) :
  (validateDiscoveryJob j jobIdx).2 = None →
  (validateDiscoveryJob j jobIdx).1 = discoveryJobWarnings jobIdx j.
Proof.
  unfold validateDiscoveryJob, discoveryJobWarnings. intros Hok.
  destruct (and_then_ok_inv _ _ Hok) as (Htype & Hok1 & ->).
  destruct (and_then_ok_inv _ _ Hok1) as (_ & Hok2 & ->).
  destruct (and_then_ok_inv _ _ Hok2) as (_ & Hok3 & ->).
  destruct (and_then_ok_inv _ _ Hok3) as (Hrange & _ & ->).
  rewrite !when_fail_log.
  rewrite (range_check_log_ok _ (metricWarnings (Some j)
             (discoveryParent j jobIdx)) 0 _
             (λ idx x, validateMetric_log_ok x idx _ _) Hrange).
  destruct (negb (String.eqb _ _)); [rewrite when_fail_log|];
    simpl; by rewrite app_nil_r.
Qed.

Lemma validateStaticJob_log_ok (j : Static.t) (jobIdx : nat) :
  (validateStaticJob j jobIdx).2 = None →
  (validateStaticJob j jobIdx).1 = staticJobWarnings jobIdx j.
Proof.
  unfold validateStaticJob, staticJobWarnings. intros Hok.
  destruct (and_then_ok_inv _ _ Hok) as (_ & Hok1 & ->).
  destruct (and_then_ok_inv _ _ Hok1) as (_ & Hok2 & ->).
  destruct (and_then_ok_inv _ _ Hok2) as (_ & Hok3 & ->).
  destruct (and_then_ok_inv _ _ Hok3) as (Hrange & _ & ->).
  rewrite !when_fail_log.
  rewrite (range_check_log_ok _ (metricWarnings None
             (staticParent j jobIdx)) 0 _
             (λ idx x, validateMetric_log_ok x idx _ _) Hrange).
  simpl. by rewrite app_nil_r.
Qed.

Lemma validate_log_ok (c : ScrapeConf.t) :
  (validate c).2 = None → (validate c).1 = allWarnings c.
Proof.
  unfold validate, allWarnings. intros Hok.
  destruct (and_then_ok_inv _ _ Hok) as (_ & Hok1 & ->).
  destruct (and_then_ok_inv _ _ Hok1) as (Hjobs & Hok2 & ->).
  destruct (and_then_ok_inv _ _ Hok2) as (Hstatic & _ & ->).
  rewrite when_fail_log. simpl. rewrite app_nil_r. f_equal.
  - destruct (Discovery.Jobs (ScrapeConf.Discovery c)) as [|js]; [done|].
    simpl in *.
    by apply (range_check_log_ok _ discoveryJobWarnings 0 js
                (λ idx x, validateDiscoveryJob_log_ok x idx)).
  - destruct (ScrapeConf.Static c) as [|ss]; [done|]. simpl in *.
    by apply (range_check_log_ok _ staticJobWarnings 0 ss
                (λ idx x, validateStaticJob_log_ok x idx)).
Qed.

(** X8. When [Load] returns nil, its log is exactly the list of the length
    warnings of the decoded tree, one for each metric whose effective
    length is below its effective period, discovery jobs first, in the
    order of the jobs and of their metrics. *)
Theorem Load_log_on_success ReadFile Unmarshal (c : ScrapeConf.t)
    (file : string) (yamlFile : list Byte.byte) (c1 : ScrapeConf.t) :
  ReadFile file = (yamlFile, None) →
  Unmarshal yamlFile c = (c1, None) →
  returned (Load ReadFile Unmarshal c file) = None →
  logged (Load ReadFile Unmarshal c file) = allWarnings c1.
Proof.
  intros Hread Hdecode. rewrite (Load_validate _ _ _ _ _ _ Hread Hdecode).
  cbn [returned logged]. apply validate_log_ok.
Qed.

Lemma Load_log_on_success_witness :
  logged (Load fileFound (decodesTo threeWarnings) zeroConf "config.yml")
  = [lengthWarning (cpuAverage 300 0) 0 (discoveryParent scenarioB_job 0)
       (Some scenarioB_job);
     lengthWarning (cpuAverage 60 0) 0 (staticParent length0_static 0) None;
     lengthWarning (cpuAverage 60 0) 0 (staticParent length0_static 2) None].
Proof.
  apply (Load_log_on_success fileFound (decodesTo threeWarnings) zeroConf
           "config.yml" [] threeWarnings); reflexivity.
Defined.

(** X9. When a discovery job fails, the static jobs are not looked at:
    two trees with the same discovery jobs, one of which fails, get the
    same log and the same error from [validate], whatever their static
    jobs are. *)
Theorem validate_skips_static_after_failure (c c' : ScrapeConf.t) (i : nat)
    (j : Job.t) :
  Discovery.Jobs (ScrapeConf.Discovery c)
  = Discovery.Jobs (ScrapeConf.Discovery c') →
  elems (Discovery.Jobs (ScrapeConf.Discovery c)) !! i = Some j →
  is_Some (validateDiscoveryJob j i).2 →
  validate c = validate c'.
Proof.
  intros Hsame Hi Hfails. unfold validate. rewrite <- Hsame.
  destruct (Discovery.Jobs (ScrapeConf.Discovery c)) as [|js]; [done|].
  simpl in *.
  destruct (range_check_fails (λ idx job, validateDiscoveryJob job idx)
              0 js i j Hi Hfails) as [e He].
  destruct (range_check (λ idx job, validateDiscoveryJob job idx) 0 js)
    as [w [e'|]]; [done | discriminate].
Qed.

Lemma validate_skips_static_after_failure_witness :
  validate noTypeThenScenarioC = validate (aConf (slice_of [noType_job])
                                             (slice_of [noMetrics_static])).
Proof.
  apply (validate_skips_static_after_failure noTypeThenScenarioC
           (aConf (slice_of [noType_job]) (slice_of [noMetrics_static]))
           0 noType_job); [reflexivity | reflexivity | by eexists].
Defined.

(** X10. The error [Load] returns tells the stage that failed: it is the
    error of [ioutil.ReadFile] exactly when the read fails, and then the
    receiver is untouched; it is the error of [yaml.Unmarshal] exactly
    when the read succeeds and the decoding fails, and then the receiver is
    as the decoder left it, without defaults; it is an error made by
    [fmt.Errorf] exactly when both succeed and [validate] refuses the
    decoded tree. In the first two cases nothing is logged. *)
Theorem Load_error_stage ReadFile Unmarshal (c : ScrapeConf.t)
    (file : string) :
  let read := ReadFile file in
  let decoded := Unmarshal read.1 c in
  (∀ cause,
     returned (Load ReadFile Unmarshal c file) = Some (ReadFileError cause)
     ↔ read.2 = Some cause)
  ∧ (∀ cause,
       returned (Load ReadFile Unmarshal c file)
       = Some (UnmarshalError cause)
       ↔ read.2 = None ∧ decoded.2 = Some cause)
  ∧ (∀ msg,
       returned (Load ReadFile Unmarshal c file) = Some (Errorf msg)
       ↔ read.2 = None ∧ decoded.2 = None
         ∧ (validate decoded.1).2 = Some (Errorf msg))
  ∧ (is_Some read.2 →
     receiver (Load ReadFile Unmarshal c file) = c
     ∧ logged (Load ReadFile Unmarshal c file) = [])
  ∧ (read.2 = None → is_Some decoded.2 →
     receiver (Load ReadFile Unmarshal c file) = decoded.1
     ∧ logged (Load ReadFile Unmarshal c file) = []).
Proof.
  intros read decoded. subst read decoded.
  destruct (ReadFile file) as [yamlFile [cause|]] eqn:Hread.
  { assert (Load ReadFile Unmarshal c file
            = mkLoadResult c [] (Some (ReadFileError cause))) as ->
      by (unfold Load; by rewrite Hread).
    simpl. split_and!.
    - intros cause'. split; by intros [= ->].
    - intros cause'. split; [discriminate | by intros [? _]].
    - intros msg. split; [discriminate | by intros [? _]].
    - done.
    - discriminate. }
  simpl. destruct (Unmarshal yamlFile c) as [c1 [cause|]] eqn:Hdecode.
  { assert (Load ReadFile Unmarshal c file
            = mkLoadResult c1 [] (Some (UnmarshalError cause))) as ->
      by (unfold Load; by rewrite Hread, Hdecode).
    simpl. split_and!.
    - intros cause'. split; discriminate.
    - intros cause'. split; [by intros [= ->] | by intros [_ [= ->]]].
    - intros msg. split; [discriminate | by intros (_ & ? & _)].
    - by intros [? ?].
    - done. }
  rewrite (Load_validate _ _ _ _ _ _ Hread Hdecode). simpl.
  pose proof (by_Errorf_validate c1) as Hfmt. split_and!.
  - intros cause. split; [|discriminate].
    intros He. by destruct (Hfmt _ He).
  - intros cause. split; [|by intros [_ ?]].
    intros He. by destruct (Hfmt _ He).
  - intros msg. split; [done | by intros (_ & _ & ?)].
  - by intros [? ?].
  - by intros _ [? ?].
Qed.

Lemma Load_error_stage_witness :
  returned (Load fileMissing (decodesTo scenarioB) twoJobs "config.yml")
  = Some (ReadFileError "open config.yml: no such file or directory")
  ∧ receiver (Load fileMissing (decodesTo scenarioB) twoJobs "config.yml")
    = twoJobs
  ∧ returned (Load fileFound (decodeFails twoJobs) zeroConf "config.yml")
    = Some (UnmarshalError "yaml: unmarshal errors")
  ∧ receiver (Load fileFound (decodeFails twoJobs) zeroConf "config.yml")
    = twoJobs.
Proof.
  destruct (Load_error_stage fileMissing (decodesTo scenarioB) twoJobs
              "config.yml") as (Hread & _ & _ & Hkept & _).
  destruct (Load_error_stage fileFound (decodeFails twoJobs) zeroConf
              "config.yml") as (_ & Hdecode & _ & _ & Hleft).
  split; [by apply Hread|]. split; [by apply Hkept|].
  split; [by apply Hdecode|]. by apply Hleft.
Defined.

(** X12. Only a period of exactly zero is taken from the enclosing
    discovery job. A metric with a negative period keeps it as its
    effective period and is refused by [validateMetric], in a static job
    and in a discovery job alike, whatever the period of that job. *)
Theorem negative_period_not_inherited (m : Metric.t) (metricIdx : nat)
    (parent : string) (discovery : option Job.t) :
  Metric.Period m < 0 →
  mPeriod m discovery = Metric.Period m
  ∧ ∃ msg,
      (validateMetric m metricIdx parent discovery).2 = Some (Errorf msg).
Proof.
  intros Hneg.
  assert (mPeriod m discovery = Metric.Period m) as Hp.
  { unfold mPeriod. destruct discovery as [d|]; [|done].
    destruct (Z.eqb_spec (Metric.Period m) 0); [lia | done]. }
  split; [done|].
  apply is_Some_Errorf; [apply by_Errorf_validateMetric|].
  apply validateMetric_period_fails. lia.
Qed.

Lemma negative_period_not_inherited_witness :
  mPeriod (cpuAverage (-60) 0) (Some negativePeriod_job) = -60
  ∧ ∃ msg,
      (validateMetric (cpuAverage (-60) 0) 0
         (discoveryParent negativePeriod_job 0) (Some negativePeriod_job)).2
      = Some (Errorf msg).
Proof.
  apply (negative_period_not_inherited (cpuAverage (-60) 0) 0
           (discoveryParent negativePeriod_job 0) (Some negativePeriod_job)).
  reflexivity.
Defined.
